(** * The tutorial store of redux-basics, and its two reducers

    Source: [Part I/examples/number_counter/index.js] (the counter example)
    and the chapter "Let's Build A State Manager" bundled with it, whose last
    listing defines [createStore], [dispatchAction], [subscribe], [getState]
    and [myReducer].

    The store is a closure over two variables, [state] and [listeners].
    Here the two variables are a record that every operation receives and
    returns, together with the completion of the call (returned, threw) and
    the list of what happened.

    Callbacks are caller code.  A callback is a function value with an
    identity and a body; the body is the sequence of statements the callback
    runs, chosen from the state it finds on entry: printing, calling a member
    of the store object (which may dispatch or subscribe again), throwing.
    Callers do not catch exceptions.  Because a callback may dispatch,
    [dispatchAction] takes a bound on the depth of nested dispatches;
    running past the bound is reported as [Exhausted] (the engine's stack
    limit).

    The counter example builds its store with the redux library, which is
    not part of the repository; its reducer and listener are run here on the
    chapter's [createStore], the store the chapter presents as the essence
    of the library's.

    Numbers are integers or NaN: the examples count in whole steps, and the
    rounding of large doubles is not part of the model.  In [NumberCounter]
    the counter's state is [undefined] or a number and payloads are not
    strings; [AnyState] gives the same reducer for a state and payloads of
    any kind, with the language's sums as parameters. *)

From stdpp Require Import base option list strings gmap.
From Stdlib Require Import ZArith.

Set Warnings "-register-all".
Local Open Scope string_scope.
Local Open Scope list_scope.

(** ** Values, statements, results *)

(** What a call can throw: the engine's TypeError (calling what is not a
    function, reading a property of [undefined]), or [throw new Error(msg)]. *)
Inductive exn :=
| TypeError
| Thrown (msg : string).

(** Keys of the object literal returned by [createStore] name these three
    closures. *)
Inductive method := dispatchAction_fn | subscribe_fn | getState_fn.

(** An argument of [console.log]: a string literal or [store.getState()]. *)
Inductive logarg :=
| LStr (s : string)
| LGetState.

(** ** Numbers and primitive values *)

Inductive number :=
| Num (z : Z)
| NaN.

Definition number_add (a b : number) : number :=
  match a, b with
  | Num x, Num y => Num (x + y)
  | _, _ => NaN
  end.

Definition number_sub (a b : number) : number :=
  match a, b with
  | Num x, Num y => Num (x - y)
  | _, _ => NaN
  end.

(** Values of object properties. *)
Inductive prim :=
| PUndef
| PNull
| PBool (b : bool)
| PNum (n : number)
| PStr (s : string).

(** [p === 'literal'] *)
Definition is_string (p : prim) (literal : string) : bool :=
  match p with
  | PStr s => String.eqb s literal
  | _ => false
  end.

(** [t] is none of the type names in [recognized]. *)
Definition unrecognized (recognized : list string) (t : prim) : bool :=
  forallb (λ name, negb (is_string t name)) recognized.

Section Store.

(** [State] is whatever the reducer works on; [Obj] is the type of the plain
    objects passed as actions. *)
Context {State Obj : Type}.

(** An argument passed to a store function: nothing, a plain object, or a
    function.  A function has an identity [fid]: two function values with
    the same [fid] are the same function instance. *)
Inductive value :=
| VUndef
| VObj (o : Obj)
| VFun (fid : nat) (body : State → list stmt)
with stmt :=
| Log (args : list logarg)            (* console.log(args...) *)
| Call (key : string) (arg : value)   (* store.key(arg) *)
| Throw (e : exn).                    (* throw e *)

(** One thing printed by [console.log]. *)
Inductive shown :=
| ShowStr (s : string)
| ShowState (st : State)
| ShowValue (v : value).

(** What an execution did, in order.  [Invoked f inner] is one call of the
    callback [f], and [inner] is what happened during that call. *)
Inductive event :=
| Printed (line : list shown)
| Reduced (action : value) (newState : State)
| Subscribed (callback : value)
| Invoked (listener : value) (inner : list event).

(** What a call evaluates to.  [RUntracked] is a value the development does
    not follow (what the methods of [Object.prototype] return). *)
Inductive retval :=
| RUndef
| RState (st : State)
| RUntracked.

Inductive completion :=
| Returned (r : retval)
| Threw (e : exn)
| Exhausted.

(** The two variables closed over by the functions of [createStore]. *)
Record store := Store { state : State; listeners : list value }.

Record result := Result {
  outcome : completion;
  final : store;
  events : list event
}.

Definition returned (r : result) : bool :=
  match outcome r with Returned _ => true | _ => false end.

(** Sequencing: [k] runs when [r] returned; otherwise [r] is the result. *)
Definition andThen (r : result) (k : store → result) : result :=
  match outcome r with
  | Returned _ =>
      let r' := k (final r) in
      Result (outcome r') (final r') (events r ++ events r')
  | _ => r
  end.

(** [r] with [evs] put before its events. *)
Definition after_events (evs : list event) (r : result) : result :=
  Result (outcome r) (final r) (evs ++ events r).

(** ** createStore *)

(** A reducer returns the lines it printed and either the exception it threw
    or the next state. *)
Definition reducer_type : Type :=
  State → value → list (list shown) * (exn + State).

(** [var state = initialState; var listeners = [];] *)
Definition createStore (initialState : State) : store :=
  Store initialState [].

(** The object literal returned by [createStore]. *)
Definition createStore_object : list (string * method) :=
  [ ("dispatchAction", dispatchAction_fn);
    ("subscribe", subscribe_fn);
    ("getState", getState_fn) ].

(** Function-valued properties every object literal inherits from
    [Object.prototype] and that return when called with one argument; none
    of them reaches the closure's variables.  (The inherited
    [__defineGetter__] and [__defineSetter__] throw a TypeError when called
    with one argument, as a call of a missing key does.) *)
Definition Object_prototype : list string :=
  [ "constructor"; "toString"; "toLocaleString"; "valueOf";
    "hasOwnProperty"; "isPrototypeOf"; "propertyIsEnumerable";
    "__lookupGetter__"; "__lookupSetter__" ].

Fixpoint own_property (obj : list (string * method)) (key : string)
  : option method :=
  match obj with
  | [] => None
  | (k, m) :: rest => if String.eqb k key then Some m else own_property rest key
  end.

(** [listeners.push(callback)]; the function has no [return]. *)
Definition subscribe (callback : value) (s : store) : result :=
  Result (Returned RUndef)
         (Store (state s) (listeners s ++ [callback]))
         [Subscribed callback].

(** [return state;] *)
Definition getState (s : store) : result :=
  Result (Returned (RState (state s))) s [].

Definition show_arg (s : store) (a : logarg) : shown :=
  match a with
  | LStr str => ShowStr str
  | LGetState => ShowState (state s)
  end.

Section Calls.

(** The implementation of [dispatchAction] that nested calls reach. *)
Variable dispatch : value → store → result.

(** [store.key(arg)]: look the key up, call what is found. *)
Definition call_member (key : string) (arg : value) (s : store) : result :=
  match own_property createStore_object key with
  | Some dispatchAction_fn => dispatch arg s
  | Some subscribe_fn => subscribe arg s
  | Some getState_fn => getState s
  | None =>
      if bool_decide (key ∈ Object_prototype)
      then Result (Returned RUntracked) s []
      else Result (Threw TypeError) s []
  end.

Definition run_stmt (c : stmt) (s : store) : result :=
  match c with
  | Log args => Result (Returned RUndef) s [Printed (map (show_arg s) args)]
  | Call key arg => call_member key arg s
  | Throw e => Result (Threw e) s []
  end.

Fixpoint run_body (cs : list stmt) (s : store) : result :=
  match cs with
  | [] => Result (Returned RUndef) s []
  | c :: rest => andThen (run_stmt c s) (run_body rest)
  end.

(** [listener()]: calling a function runs its body; calling anything else
    is a TypeError. *)
Definition invoke (listener : value) (s : store) : result :=
  match listener with
  | VFun _ body =>
      let r := run_body (body (state s)) s in
      Result (match outcome r with
              | Returned _ => Returned RUndef
              | c => c
              end)
             (final r)
             [Invoked listener (events r)]
  | _ => Result (Threw TypeError) s []
  end.

(** [Array.prototype.forEach]: the length is read once, before the first
    call; index [k] is read from the array as it is when its turn comes,
    and an absent index is skipped. *)
Fixpoint forEach_from (k count : nat) (s : store) : result :=
  match count with
  | 0 => Result (Returned RUndef) s []
  | S count' =>
      match listeners s !! k with
      | Some listener =>
          andThen (invoke listener s) (forEach_from (S k) count')
      | None => forEach_from (S k) count' s
      end
  end.

Definition forEach (s : store) : result :=
  forEach_from 0 (length (listeners s)) s.

(** The listeners of a list called one after the other, stopping at the
    first call that does not return. *)
Fixpoint call_all (fs : list value) (s : store) : result :=
  match fs with
  | [] => Result (Returned RUndef) s []
  | f :: rest => andThen (invoke f s) (call_all rest)
  end.

End Calls.

Section Dispatch.

Variable reducer : reducer_type.

(** [state = reducer(state, action); listeners.forEach(...)].  The
    assignment happens once the reducer has returned. *)
Fixpoint dispatchAction (depth : nat) (action : value) (s : store) : result :=
  match depth with
  | 0 => Result Exhausted s []
  | S depth' =>
      match reducer (state s) action with
      | (lines, inl e) => Result (Threw e) s (map Printed lines)
      | (lines, inr newState) =>
          after_events
            (map Printed lines ++ [Reduced action newState])
            (forEach (dispatchAction depth') (Store newState (listeners s)))
      end
  end.

(** A top-level script using the store. *)
Definition run (depth : nat) (script : list stmt) (s : store) : result :=
  run_body (dispatchAction depth) script s.

(** The reducer folded from the left over a list of actions; [None] when
    one of the calls throws. *)
Fixpoint reduce_all (actions : list value) (st : State) : option State :=
  match actions with
  | [] => Some st
  | a :: rest =>
      match (reducer st a).2 with
      | inr st' => reduce_all rest st'
      | inl _ => None
      end
  end.

End Dispatch.

(** ** Reading a list of events *)

(** The actions the reducer was applied to with success, in order, nested
    dispatches included. *)
Fixpoint reductions_of (e : event) : list value :=
  match e with
  | Reduced a _ => [a]
  | Invoked _ inner => flat_map reductions_of inner
  | _ => []
  end.

Definition reductions (evs : list event) : list value :=
  flat_map reductions_of evs.

(** The callbacks pushed by [subscribe], in order, nested calls included. *)
Fixpoint subscriptions_of (e : event) : list value :=
  match e with
  | Subscribed f => [f]
  | Invoked _ inner => flat_map subscriptions_of inner
  | _ => []
  end.

Definition subscriptions (evs : list event) : list value :=
  flat_map subscriptions_of evs.

(** The console, nested calls included. *)
Fixpoint console_of (e : event) : list (list shown) :=
  match e with
  | Printed line => [line]
  | Invoked _ inner => flat_map console_of inner
  | _ => []
  end.

Definition console (evs : list event) : list (list shown) :=
  flat_map console_of evs.

(** The callbacks called at the top level of [evs] (not those called by a
    dispatch nested in one of them), in order. *)
Definition invocations (evs : list event) : list value :=
  omap (λ e, match e with Invoked f _ => Some f | _ => None end) evs.

(** The value of [r] where it can stand as an argument or as a callee. *)
Definition value_of_retval (r : retval) : option value :=
  match r with
  | RUndef => Some VUndef
  | _ => None
  end.

(** ** Relations between the store before, the events, and the store after *)

(** [R] holds of the run that gave [r] from [s]. *)
Definition kept (R : store → list event → store → Prop)
  (s : store) (r : result) : Prop :=
  R s (events r) (final r).

(** The state after is the reducer folded over the actions reduced. *)
Definition folded (reducer : reducer_type) : store → list event → store → Prop :=
  λ s evs s', reduce_all reducer (reductions evs) (state s) = Some (state s').

(** The listeners after are those before, then those subscribed. *)
Definition grown : store → list event → store → Prop :=
  λ s evs s', listeners s' = listeners s ++ subscriptions evs.

(** [r] returned and left the store as it was. *)
Definition silent (s : store) (r : result) : Prop :=
  returned r = true ∧ final r = s ∧
  reductions (events r) = [] ∧ subscriptions (events r) = [].

(** [reducer] gives back the state it was given whenever the type of the
    action, read by [type_of], is none of [recognized]. *)
Definition identity_on_unknown (reducer : reducer_type)
  (type_of : value → exn + prim) (recognized : list string) : Prop :=
  ∀ st a t,
    type_of a = inr t → unrecognized recognized t = true →
    (reducer st a).2 = inr st.

(** ** Callbacks that only look *)

Definition is_observation (c : stmt) : bool :=
  match c with
  | Log _ => true
  | Call key _ => String.eqb key "getState"
  | Throw _ => false
  end.

(** A function whose body, whatever the state, only prints and reads. *)
Definition observer (f : value) : Prop :=
  match f with
  | VFun _ body => ∀ st, forallb is_observation (body st) = true
  | _ => False
  end.

(** The lines the [console.log] statements of [cs] print on store [s]. *)
Definition lines_of (s : store) (cs : list stmt) : list (list shown) :=
  flat_map (λ c, match c with
                 | Log args => [map (show_arg s) args]
                 | _ => []
                 end) cs.

(** The lines the body of [f] prints when [f] is called on store [s]. *)
Definition listener_lines (s : store) (f : value) : list (list shown) :=
  match f with
  | VFun _ body => lines_of s (body (state s))
  | _ => []
  end.

(** [v()] is a call of a function. *)
Definition callable (v : value) : bool :=
  match v with
  | VFun _ _ => true
  | _ => false
  end.

End Store.

Arguments value : clear implicits.
Arguments stmt : clear implicits.
Arguments shown : clear implicits.
Arguments event : clear implicits.
Arguments retval : clear implicits.
Arguments completion : clear implicits.
Arguments store : clear implicits.
Arguments result : clear implicits.
Arguments reducer_type : clear implicits.

(** ** The counter example: index.js *)

Module NumberCounter.

(** The state is [undefined] until the reducer has run once. *)
Inductive counter_state :=
| Undefined
| Number (n : number).

(** The right operand of [state + action.incrementByThis]: any primitive but
    a string (with a string, [+] would concatenate and the state would stop
    being a number). *)
Inductive operand :=
| OUndef
| ONull
| OBool (b : bool)
| ONum (n : number).

Definition ToNumber (x : operand) : number :=
  match x with
  | OUndef => NaN
  | ONull => Num 0
  | OBool b => Num (if b then 1 else 0)
  | ONum n => n
  end.

(** An action object: its [type] and its [incrementByThis] property
    ([OUndef] when the object has none). *)
Record action := Action { type : prim; incrementByThis : operand }.

Abbreviation value := (value counter_state action).

(** [action.type]: reading a property of [undefined] throws; a function has
    no such property. *)
Definition action_type (a : value) : exn + prim :=
  match a with
  | VUndef => inl TypeError
  | VObj o => inr (type o)
  | VFun _ _ => inr PUndef
  end.

Definition action_incrementByThis (a : value) : operand :=
  match a with
  | VObj o => incrementByThis o
  | _ => OUndef
  end.

(** The function passed to [redux.createStore], lines 15 to 40. *)
Definition numberStore_reducer : reducer_type counter_state action :=
  λ state action,
    let line := [ShowStr "Action just came in:"; ShowValue action] in
    let n := match state with Undefined => Num 0 | Number n => n end in
    match action_type action with
    | inl e => ([line], inl e)
    | inr t =>
        if is_string t "INCREMENT" then
          ([line], inr (Number (number_add n (Num 1))))
        else if is_string t "DECREMENT" then
          ([line], inr (Number (number_sub n (Num 1))))
        else if is_string t "INCREMENT_BY" then
          ([line],
           inr (Number (number_add n (ToNumber (action_incrementByThis action)))))
        else ([line], inr (Number n))
    end.

(** The types the reducer has a branch for. *)
Definition recognized : list string :=
  ["INCREMENT"; "DECREMENT"; "INCREMENT_BY"].

(** The callback of lines 42 to 44. *)
Definition numberStore_listener : value :=
  VFun 0 (λ _, [Log [LStr "My state just changed!"; LGetState]]).

Definition INCREMENT : value := VObj (Action (PStr "INCREMENT") OUndef).
Definition DECREMENT : value := VObj (Action (PStr "DECREMENT") OUndef).
Definition INCREMENT_BY (k : Z) : value :=
  VObj (Action (PStr "INCREMENT_BY") (ONum (Num k))).

(** Lines 42 to 50, with the chapter's method name for dispatching. *)
Definition numberStore_script : list (stmt counter_state action) :=
  [ Call "subscribe" numberStore_listener;
    Call "dispatchAction" INCREMENT;
    Call "dispatchAction" (INCREMENT_BY 3);
    Call "dispatchAction" DECREMENT ].

(** The whole number an action adds to a counter that holds a whole number;
    [None] when the reducer throws on the action or the sum is NaN. *)
Definition delta (a : value) : option Z :=
  match action_type a with
  | inl _ => None
  | inr t =>
      if is_string t "INCREMENT" then Some 1%Z
      else if is_string t "DECREMENT" then Some (-1)%Z
      else if is_string t "INCREMENT_BY" then
        match ToNumber (action_incrementByThis a) with
        | Num k => Some k
        | NaN => None
        end
      else Some 0%Z
  end.

Definition change (actions : list value) : Z :=
  foldr (λ a acc, (default 0 (delta a) + acc)%Z) 0%Z actions.

(** The whole numbers a double holds exactly, sums included. *)
Definition safe_integer (z : Z) : Prop := (- 2 ^ 53 ≤ z ≤ 2 ^ 53)%Z.

(** Counting from [z] through [actions], every operand and every
    intermediate count is a safe integer. *)
Fixpoint stays_safe (z : Z) (actions : list value) : Prop :=
  safe_integer z ∧
  match actions with
  | [] => True
  | a :: rest =>
      ∃ k, delta a = Some k ∧ safe_integer k ∧ stays_safe (z + k) rest
  end.

End NumberCounter.

(** ** The chapter's example: myReducer *)

Module Chapter.

(** Plain objects with primitive properties; the state and the actions of
    [myReducer] are such objects. *)
Abbreviation object := (gmap string prim).
Abbreviation value := (value object object).

(** [o.key]: a missing property reads as [undefined]. *)
Definition get (o : object) (key : string) : prim :=
  default PUndef (o !! key).

(** [Object.assign(target, sources...)]: the properties of each source are
    copied onto the target, later sources winning. *)
Definition Object_assign (target : object) (sources : list object) : object :=
  foldl (λ t src, src ∪ t) target sources.

Definition action_type (a : value) : exn + prim :=
  match a with
  | VUndef => inl TypeError
  | VObj o => inr (get o "type")
  | VFun _ _ => inr PUndef
  end.

Definition action_get (a : value) (key : string) : prim :=
  match a with
  | VObj o => get o key
  | _ => PUndef
  end.

(** Lines 326 to 339 (the same function as [stateModifier] earlier in the
    chapter). *)
Definition myReducer : reducer_type object object :=
  λ oldState action,
    match action_type action with
    | inl e => ([], inl e)
    | inr t =>
        if is_string t "UPDATE_BIO" then
          ([], inr (Object_assign ∅
                      [ oldState;
                        {[ "name" := action_get action "name";
                           "age" := action_get action "age" ]} ]))
        else if is_string t "INCREMENT_NUM" then
          ([], inr (Object_assign ∅
                      [ oldState;
                        {[ "num" := action_get action "incrementer" ]} ]))
        else ([], inr oldState)
    end.

(** The types the reducer has a branch for. *)
Definition recognized : list string := ["UPDATE_BIO"; "INCREMENT_NUM"].

Definition UPDATE_BIO (name : string) (age : Z) : value :=
  VObj {[ "type" := PStr "UPDATE_BIO";
          "name" := PStr name;
          "age" := PNum (Num age) ]}.

Definition INCREMENT_NUM (incrementer : Z) : value :=
  VObj {[ "type" := PStr "INCREMENT_NUM";
          "incrementer" := PNum (Num incrementer) ]}.

(** [{ num: 0, name: '', age: null }] *)
Definition bio_initial : object :=
  {[ "num" := PNum (Num 0); "name" := PStr ""; "age" := PNull ]}.

(** The callback of lines 346 to 348. *)
Definition store_listener : value :=
  VFun 0 (λ _, [Log [LStr "Our state just updated!"]]).

(** Lines 346 to 356 as they are written. *)
Definition walkthrough_script : list (stmt object object) :=
  [ Call "subscribe" store_listener;
    Call "dispatch" (UPDATE_BIO "Zak" 17);
    Call "dispatch" (INCREMENT_NUM 5);
    Log [LGetState] ].

(** The same lines with the name the store defines. *)
Definition walkthrough_dispatchAction : list (stmt object object) :=
  [ Call "subscribe" store_listener;
    Call "dispatchAction" (UPDATE_BIO "Zak" 17);
    Call "dispatchAction" (INCREMENT_NUM 5);
    Log [LGetState] ].

(** The function [updateBio] passes to [updateState], lines 229 to 234. *)
Definition updateBio_modifier (name age : prim) (oldState : object) : object :=
  Object_assign ∅ [ oldState; {[ "name" := name; "age" := age ]} ].

End Chapter.

(** ** The counter's reducer over any kind of state

    Lines 15 to 40 once more, for a state and for payloads that may be any
    JavaScript value.  What [+] and [-] make of such values is the
    language's, not the repository's: the three sums are taken as given,
    each giving the new state or the exception it throws. *)

Module AnyState.

Section Reducer.

Context {State Obj : Type}.

Variable is_undefined : State → bool.         (* state === undefined *)
Variable zero : State.                         (* 0 *)
Variable plus_one : State → exn + State.       (* state + 1 *)
Variable minus_one : State → exn + State.      (* state - 1 *)
Variable plus_incrementByThis :                (* state + action.incrementByThis *)
  State → value State Obj → exn + State.
Variable type_of : Obj → prim.                 (* the object's type property *)

Definition action_type (a : value State Obj) : exn + prim :=
  match a with
  | VUndef => inl TypeError
  | VObj o => inr (type_of o)
  | VFun _ _ => inr PUndef
  end.

Definition numberStore_reducer : reducer_type State Obj :=
  λ state action,
    let line := [ShowStr "Action just came in:"; ShowValue action] in
    let state := if is_undefined state then zero else state in
    match action_type action with
    | inl e => ([line], inl e)
    | inr t =>
        if is_string t "INCREMENT" then ([line], plus_one state)
        else if is_string t "DECREMENT" then ([line], minus_one state)
        else if is_string t "INCREMENT_BY" then
          ([line], plus_incrementByThis state action)
        else ([line], inr state)
    end.

End Reducer.

(** The sums of [NumberCounter]: a state that is [undefined] or a number,
    payloads that are not strings. *)
Definition counter_is_undefined (st : NumberCounter.counter_state) : bool :=
  match st with
  | NumberCounter.Undefined => true
  | NumberCounter.Number _ => false
  end.

Definition counter_number (st : NumberCounter.counter_state) : number :=
  match st with
  | NumberCounter.Undefined => NaN
  | NumberCounter.Number n => n
  end.

Definition counter_reducer
  : reducer_type NumberCounter.counter_state NumberCounter.action :=
  numberStore_reducer
    counter_is_undefined
    (NumberCounter.Number (Num 0))
    (λ st, inr (NumberCounter.Number (number_add (counter_number st) (Num 1))))
    (λ st, inr (NumberCounter.Number (number_sub (counter_number st) (Num 1))))
    (λ st a, inr (NumberCounter.Number
                    (number_add (counter_number st)
                       (NumberCounter.ToNumber
                          (NumberCounter.action_incrementByThis a)))))
    NumberCounter.type.

End AnyState.

(** * Properties *)

(** ** Sequencing *)

Section Sequencing.

Context {State Obj : Type}.
Implicit Types (s : store State Obj) (r : result State Obj).
Implicit Types (evs : list (event State Obj)).

Lemma andThen_returned r k x :
  outcome r = Returned x →
  andThen r k =
    Result (outcome (k (final r))) (final (k (final r)))
           (events r ++ events (k (final r))).
Proof. intros H. unfold andThen. by rewrite H. Qed.


Lemma andThen_ext r k1 k2 :
  k1 (final r) = k2 (final r) → andThen r k1 = andThen r k2.
Proof. intros H. unfold andThen. by rewrite H. Qed.

Lemma returned_andThen r k :
  returned (andThen r k) = returned r && returned (k (final r)).
Proof.
  unfold returned, andThen.
  destruct (outcome r) eqn:E; simpl; by rewrite ?E.
Qed.

Lemma reductions_app evs1 evs2 :
  reductions (evs1 ++ evs2) = reductions evs1 ++ reductions evs2.
Proof. apply flat_map_app. Qed.

Lemma subscriptions_app evs1 evs2 :
  subscriptions (evs1 ++ evs2) = subscriptions evs1 ++ subscriptions evs2.
Proof. apply flat_map_app. Qed.

Lemma invocations_app evs1 evs2 :
  invocations (evs1 ++ evs2) = invocations evs1 ++ invocations evs2.
Proof. apply omap_app. Qed.

Lemma reductions_printed (lines : list (list (shown State Obj))) :
  reductions (map Printed lines) = [].
Proof. induction lines; [done | by simpl]. Qed.

Lemma subscriptions_printed (lines : list (list (shown State Obj))) :
  subscriptions (map Printed lines) = [].
Proof. induction lines; [done | by simpl]. Qed.

Lemma invocations_printed (lines : list (list (shown State Obj))) :
  invocations (map Printed lines) = [].
Proof. induction lines; [done | by simpl]. Qed.

Lemma call_dispatchAction
  (dispatch : value State Obj → store State Obj → result State Obj) v s :
  call_member dispatch "dispatchAction" v s = dispatch v s.
Proof. done. Qed.

End Sequencing.

(** ** A relation kept by every operation

    [R s evs s'] relates the store before, what happened, and the store
    after.  If [R] is kept by each kind of event and by sequencing, it holds
    of every operation of the store. *)

Section Kept.

Context {State Obj : Type}.
Variable reducer : reducer_type State Obj.
Variable R : store State Obj → list (event State Obj) → store State Obj → Prop.

Hypothesis R_nil : ∀ s, R s [] s.
Hypothesis R_app : ∀ s1 evs1 s2 evs2 s3,
  R s1 evs1 s2 → R s2 evs2 s3 → R s1 (evs1 ++ evs2) s3.
Hypothesis R_printed : ∀ s line, R s [Printed line] s.
Hypothesis R_subscribed : ∀ s f,
  R s [Subscribed f] (Store (state s) (listeners s ++ [f])).
Hypothesis R_reduced : ∀ s a lines st',
  reducer (state s) a = (lines, inr st') →
  R s [Reduced a st'] (Store st' (listeners s)).
Hypothesis R_invoked : ∀ s f inner s',
  R s inner s' → R s [Invoked f inner] s'.

Lemma kept_lines s lines : R s (map Printed lines) s.
Proof.
  induction lines as [|l lines IH]; simpl; [apply R_nil |].
  change (R s ([Printed l] ++ map Printed lines) s). eauto.
Qed.

Lemma kept_andThen s r k :
  kept R s r → (∀ s', kept R s' (k s')) → kept R s (andThen r k).
Proof.
  unfold kept, andThen. intros Hr Hk.
  destruct (outcome r); simpl; eauto.
Qed.

Section WithDispatch.

Variable dispatch : value State Obj → store State Obj → result State Obj.
Hypothesis kept_dispatch : ∀ v s, kept R s (dispatch v s).

Lemma kept_call_member key arg s : kept R s (call_member dispatch key arg s).
Proof.
  unfold call_member.
  destruct (own_property createStore_object key) as [[]|].
  - apply kept_dispatch.
  - apply R_subscribed.
  - apply R_nil.
  - case_bool_decide; apply R_nil.
Qed.

Lemma kept_run_stmt c s : kept R s (run_stmt dispatch c s).
Proof.
  destruct c; simpl.
  - apply R_printed.
  - apply kept_call_member.
  - apply R_nil.
Qed.

Lemma kept_run_body cs s : kept R s (run_body dispatch cs s).
Proof.
  revert s. induction cs as [|c cs IH]; intros s; simpl.
  - apply R_nil.
  - apply kept_andThen; [apply kept_run_stmt | done].
Qed.

Lemma kept_invoke f s : kept R s (invoke dispatch f s).
Proof.
  destruct f; simpl; try apply R_nil.
  apply R_invoked, kept_run_body.
Qed.

Lemma kept_forEach_from count k s : kept R s (forEach_from dispatch k count s).
Proof.
  revert k s. induction count as [|count IH]; intros k s; simpl.
  - apply R_nil.
  - destruct (listeners s !! k); [| apply IH].
    apply kept_andThen; [apply kept_invoke | intros; apply IH].
Qed.

Lemma kept_call_all fs s : kept R s (call_all dispatch fs s).
Proof.
  revert s. induction fs as [|f fs IH]; intros s; simpl.
  - apply R_nil.
  - apply kept_andThen; [apply kept_invoke | done].
Qed.

End WithDispatch.

Lemma kept_dispatchAction depth action s :
  kept R s (dispatchAction reducer depth action s).
Proof.
  revert action s. induction depth as [|depth IH]; intros action s; simpl.
  - apply R_nil.
  - destruct (reducer (state s) action) as [lines [e|st']] eqn:Hred.
    + apply kept_lines.
    + unfold kept, after_events; simpl.
      apply R_app with (s2 := Store st' (listeners s)).
      * apply R_app with (s2 := s); [apply kept_lines | by eapply R_reduced].
      * by apply kept_forEach_from.
Qed.

Lemma kept_run depth script s : kept R s (run reducer depth script s).
Proof. apply kept_run_body, kept_dispatchAction. Qed.

End Kept.

(** ** The state is a fold, the listeners only grow *)

Section Invariants.

Context {State Obj : Type}.
Variable reducer : reducer_type State Obj.
Implicit Types (s : store State Obj) (r : result State Obj).
Implicit Types (v f : value State Obj) (fs : list (value State Obj)).

Lemma reduce_all_app (actions1 actions2 : list (value State Obj)) st :
  reduce_all reducer (actions1 ++ actions2) st =
  reduce_all reducer actions1 st ≫= reduce_all reducer actions2.
Proof.
  revert st. induction actions1 as [|a actions1 IH]; intros st; simpl; [done |].
  destruct (reducer st a).2; [done | apply IH].
Qed.

Lemma reductions_invoked f (inner : list (event State Obj)) :
  reductions [Invoked f inner] = reductions inner.
Proof. unfold reductions. simpl. apply app_nil_r. Qed.

Lemma subscriptions_invoked f (inner : list (event State Obj)) :
  subscriptions [Invoked f inner] = subscriptions inner.
Proof. unfold subscriptions. simpl. apply app_nil_r. Qed.

Lemma folded_nil s : folded reducer s [] s.
Proof. done. Qed.

Lemma folded_app s1 (evs1 : list (event State Obj)) s2
  (evs2 : list (event State Obj)) s3 :
  folded reducer s1 evs1 s2 → folded reducer s2 evs2 s3 →
  folded reducer s1 (evs1 ++ evs2) s3.
Proof.
  unfold folded. intros H12 H23.
  by rewrite reductions_app, reduce_all_app, H12.
Qed.

Lemma folded_printed s line : folded reducer s [Printed line] s.
Proof. done. Qed.

Lemma folded_subscribed s f :
  folded reducer s [Subscribed f] (Store (state s) (listeners s ++ [f])).
Proof. done. Qed.

Lemma folded_reduced s a lines st' :
  reducer (state s) a = (lines, inr st') →
  folded reducer s [Reduced a st'] (Store st' (listeners s)).
Proof. unfold folded. intros Hred. simpl. by rewrite Hred. Qed.

Lemma folded_invoked s f (inner : list (event State Obj)) s' :
  folded reducer s inner s' → folded reducer s [Invoked f inner] s'.
Proof. unfold folded. by rewrite reductions_invoked. Qed.

Lemma folded_dispatchAction depth action s :
  kept (folded reducer) s (dispatchAction reducer depth action s).
Proof.
  exact (kept_dispatchAction reducer (folded reducer) folded_nil folded_app
           folded_printed folded_subscribed folded_reduced folded_invoked
           depth action s).
Qed.

Lemma folded_run depth script s :
  kept (folded reducer) s (run reducer depth script s).
Proof.
  exact (kept_run reducer (folded reducer) folded_nil folded_app
           folded_printed folded_subscribed folded_reduced folded_invoked
           depth script s).
Qed.

Lemma grown_nil s : grown s [] s.
Proof. unfold grown. simpl. by rewrite app_nil_r. Qed.

Lemma grown_app s1 (evs1 : list (event State Obj)) s2
  (evs2 : list (event State Obj)) s3 :
  grown s1 evs1 s2 → grown s2 evs2 s3 → grown s1 (evs1 ++ evs2) s3.
Proof.
  unfold grown. intros H12 H23.
  by rewrite H23, H12, subscriptions_app, app_assoc.
Qed.

Lemma grown_printed s (line : list (shown State Obj)) :
  grown s [Printed line] s.
Proof. apply grown_nil. Qed.

Lemma grown_subscribed s f :
  grown s [Subscribed f] (Store (state s) (listeners s ++ [f])).
Proof. done. Qed.

Lemma grown_reduced s a (lines : list (list (shown State Obj))) st' :
  reducer (state s) a = (lines, inr st') →
  grown s [Reduced a st'] (Store st' (listeners s)).
Proof. intros _. unfold grown. simpl. by rewrite app_nil_r. Qed.

Lemma grown_invoked s f (inner : list (event State Obj)) s' :
  grown s inner s' → grown s [Invoked f inner] s'.
Proof. unfold grown. by rewrite subscriptions_invoked. Qed.

Lemma grown_dispatchAction depth action s :
  kept grown s (dispatchAction reducer depth action s).
Proof.
  exact (kept_dispatchAction reducer grown grown_nil grown_app
           grown_printed grown_subscribed grown_reduced grown_invoked
           depth action s).
Qed.

Lemma grown_run depth script s :
  kept grown s (run reducer depth script s).
Proof.
  exact (kept_run reducer grown grown_nil grown_app
           grown_printed grown_subscribed grown_reduced grown_invoked
           depth script s).
Qed.

Lemma grown_invoke depth f s :
  kept grown s (invoke (dispatchAction reducer depth) f s).
Proof.
  apply kept_invoke.
  - apply grown_nil.
  - apply grown_app.
  - apply grown_printed.
  - apply grown_subscribed.
  - apply grown_invoked.
  - apply grown_dispatchAction.
Qed.

(** *** forEach calls the listeners that were there when it started *)

Lemma forEach_from_call_all depth fs : ∀ pre post s,
  listeners s = pre ++ fs ++ post →
  forEach_from (dispatchAction reducer depth) (length pre) (length fs) s =
  call_all (dispatchAction reducer depth) fs s.
Proof.
  induction fs as [|f fs IH]; intros pre post s Hs; simpl; [done |].
  assert (listeners s !! length pre = Some f) as ->
    by (rewrite Hs; by apply (list_lookup_middle pre (fs ++ post))).
  apply andThen_ext.
  pose proof (grown_invoke depth f s) as Hg. unfold kept, grown in Hg.
  specialize (IH (pre ++ [f]) (post ++ subscriptions
    (events (invoke (dispatchAction reducer depth) f s)))
    (final (invoke (dispatchAction reducer depth) f s))).
  rewrite length_app in IH. simpl in IH.
  replace (length pre + 1) with (S (length pre)) in IH by lia.
  apply IH. rewrite Hg, Hs. by rewrite <- !app_assoc.
Qed.

Lemma forEach_call_all depth s :
  forEach (dispatchAction reducer depth) s =
  call_all (dispatchAction reducer depth) (listeners s) s.
Proof.
  unfold forEach.
  apply (forEach_from_call_all depth (listeners s) [] []).
  simpl. by rewrite app_nil_r.
Qed.

Lemma invocations_call_all dispatch fs s :
  returned (call_all dispatch fs s) = true →
  invocations (events (call_all dispatch fs s)) = fs.
Proof.
  revert s. induction fs as [|f fs IH]; intros s; simpl; [done |].
  rewrite returned_andThen. intros [Hf Hfs]%andb_prop.
  unfold returned in Hf.
  destruct (outcome (invoke dispatch f s)) as [x| |] eqn:Hout; try done.
  rewrite (andThen_returned _ _ x Hout). simpl.
  rewrite invocations_app, (IH _ Hfs).
  destruct f; simpl in *; try done.
Qed.

Lemma invocations_call_all_prefix dispatch fs s :
  invocations (events (call_all dispatch fs s)) `prefix_of` fs.
Proof.
  revert s. induction fs as [|f fs IH]; intros s; simpl; [done |].
  unfold andThen.
  destruct f as [|o|fid body]; simpl; try apply prefix_nil.
  destruct (outcome (run_body dispatch (body (state s)) s)); simpl.
  - apply prefix_cons, IH.
  - apply prefix_cons, prefix_nil.
  - apply prefix_cons, prefix_nil.
Qed.

Lemma dispatchAction_unfold depth action s :
  dispatchAction reducer (S depth) action s =
  match reducer (state s) action with
  | (lines, inl e) => Result (Threw e) s (map Printed lines)
  | (lines, inr newState) =>
      after_events
        (map Printed lines ++ [Reduced action newState])
        (call_all (dispatchAction reducer depth) (listeners s)
                  (Store newState (listeners s)))
  end.
Proof.
  simpl. destruct (reducer (state s) action) as [lines [e|st']]; [done |].
  by rewrite forEach_call_all.
Qed.

Lemma invocations_dispatchAction_prefix depth action s :
  invocations (events (dispatchAction reducer depth action s))
    `prefix_of` listeners s.
Proof.
  destruct depth as [|depth]; [apply prefix_nil |].
  rewrite dispatchAction_unfold.
  destruct (reducer (state s) action) as [lines [e|st']]; simpl.
  - rewrite invocations_printed. apply prefix_nil.
  - rewrite !invocations_app, invocations_printed. simpl.
    apply invocations_call_all_prefix.
Qed.

Lemma invocations_dispatchAction depth action s :
  returned (dispatchAction reducer depth action s) = true →
  invocations (events (dispatchAction reducer depth action s)) = listeners s.
Proof.
  destruct depth as [|depth]; [done |].
  rewrite dispatchAction_unfold.
  destruct (reducer (state s) action) as [lines [e|st']]; [done |].
  unfold after_events, returned. simpl. intros Hret.
  rewrite !invocations_app, invocations_printed. simpl.
  by apply invocations_call_all.
Qed.

End Invariants.

(** ** Listeners that only print and read *)

Section Observers.

Context {State Obj : Type}.
Implicit Types (s : store State Obj) (r : result State Obj).
Implicit Types (v f : value State Obj) (fs : list (value State Obj)).

Variable dispatch : value State Obj → store State Obj → result State Obj.

Lemma silent_andThen s r k :
  silent s r → silent s (k s) → silent s (andThen r k).
Proof.
  intros (Hret & Hfin & Hred & Hsub) (Hret' & Hfin' & Hred' & Hsub').
  unfold returned in Hret.
  destruct (outcome r) as [x| |] eqn:Hout; try done.
  rewrite (andThen_returned _ _ x Hout), Hfin. unfold silent, returned in *.
  simpl. by rewrite reductions_app, subscriptions_app, Hred, Hred', Hsub, Hsub'.
Qed.

Lemma silent_run_stmt c s :
  is_observation c = true → silent s (run_stmt dispatch c s).
Proof.
  destruct c as [args|key arg|e]; simpl; [done | | done].
  intros ->%String.eqb_eq. done.
Qed.

Lemma silent_run_body cs s :
  forallb is_observation cs = true → silent s (run_body dispatch cs s).
Proof.
  induction cs as [|c cs IH]; simpl; [done |].
  intros [Hc Hcs]%andb_prop.
  apply silent_andThen; [by apply silent_run_stmt | by apply IH].
Qed.

Lemma silent_invoke f s :
  observer f →
  silent s (invoke dispatch f s) ∧
  invocations (events (invoke dispatch f s)) = [f].
Proof.
  destruct f as [|o|fid body]; simpl; try done.
  intros Hobs.
  destruct (silent_run_body (body (state s)) s (Hobs _))
    as (Hret & Hfin & Hred & Hsub).
  unfold silent, returned, reductions, subscriptions in *. simpl.
  rewrite !app_nil_r.
  by destruct (outcome (run_body dispatch (body (state s)) s)).
Qed.

Lemma silent_call_all fs s :
  Forall observer fs →
  silent s (call_all dispatch fs s) ∧
  invocations (events (call_all dispatch fs s)) = fs.
Proof.
  induction 1 as [|f fs Hf Hfs [IHs IHi]]; simpl; [done |].
  destruct (silent_invoke f s Hf) as [Hs Hi].
  split; [by apply silent_andThen |].
  destruct Hs as (Hret & Hfin & _). unfold returned in Hret.
  destruct (outcome (invoke dispatch f s)) as [x| |] eqn:Hout; try done.
  rewrite (andThen_returned _ _ x Hout), Hfin. simpl.
  by rewrite invocations_app, Hi, IHi.
Qed.

End Observers.

Section ObservedDispatch.

Context {State Obj : Type}.
Variable reducer : reducer_type State Obj.
Implicit Types (s : store State Obj) (r : result State Obj).

(** A dispatch on a store whose listeners are observers: the new state is
    stored, every listener is called, nothing else happens. *)
Lemma dispatchAction_observed depth action s st' :
  Forall observer (listeners s) →
  (reducer (state s) action).2 = inr st' →
  let r := dispatchAction reducer (S depth) action s in
  returned r = true ∧
  final r = Store st' (listeners s) ∧
  reductions (events r) = [action] ∧
  subscriptions (events r) = [] ∧
  invocations (events r) = listeners s.
Proof.
  intros Hobs Hred r. subst r. rewrite dispatchAction_unfold.
  destruct (reducer (state s) action) as [lines [e|st'']]; simpl in Hred;
    [done |]. injection Hred as ->.
  destruct (silent_call_all (dispatchAction reducer depth) (listeners s)
              (Store st' (listeners s)) Hobs)
    as [(Hret & Hfin & Hr & Hs) Hi].
  unfold after_events, returned in *. simpl.
  rewrite !reductions_app, !subscriptions_app, !invocations_app.
  rewrite reductions_printed, subscriptions_printed, invocations_printed.
  rewrite Hr, Hs, Hi. done.
Qed.

Lemma run_dispatches_observed depth actions : ∀ s st',
  Forall observer (listeners s) →
  reduce_all reducer actions (state s) = Some st' →
  let r := run reducer (S depth) (map (Call "dispatchAction") actions) s in
  returned r = true ∧
  final r = Store st' (listeners s) ∧
  reductions (events r) = actions.
Proof.
  induction actions as [|a actions IH]; intros s st' Hobs Hfold; simpl in *.
  - injection Hfold as <-. by destruct s.
  - destruct (reducer (state s) a).2 as [e|st1] eqn:Hred; [done |].
    destruct (dispatchAction_observed depth a s st1 Hobs Hred)
      as (Hret & Hfin & Hr & _).
    unfold run in *. cbn [run_body run_stmt].
    rewrite call_dispatchAction.
    unfold returned in Hret.
    destruct (outcome (dispatchAction reducer (S depth) a s)) as [x| |] eqn:Hout;
      try done.
    rewrite (andThen_returned _ _ x Hout), Hfin.
    destruct (IH (Store st1 (listeners s)) st' Hobs Hfold) as (Hret' & Hfin' & Hr').
    unfold returned in *. simpl in *.
    by rewrite reductions_app, Hr, Hr'.
Qed.

(** A dispatch during which nothing but its own action is reduced leaves
    what its reducer call returned. *)
Lemma dispatchAction_single_reduction depth action s st' :
  (reducer (state s) action).2 = inr st' →
  reductions (events (dispatchAction reducer depth action s)) = [action] →
  state (final (dispatchAction reducer depth action s)) = st'.
Proof.
  intros Hred Hone.
  pose proof (folded_dispatchAction reducer depth action s) as Hfold.
  unfold kept, folded in Hfold. rewrite Hone in Hfold. simpl in Hfold.
  rewrite Hred in Hfold. by injection Hfold.
Qed.

(** The state a dispatch stores is the one its reducer call returned, and
    the listeners are called on the store holding it. *)
Lemma dispatchAction_stores depth action s lines st' :
  reducer (state s) action = (lines, inr st') →
  dispatchAction reducer (S depth) action s =
  after_events (map Printed lines ++ [Reduced action st'])
    (call_all (dispatchAction reducer depth) (listeners s)
              (Store st' (listeners s))).
Proof. intros Hred. by rewrite dispatchAction_unfold, Hred. Qed.

End ObservedDispatch.

Section AnyStateReducer.

Context {State Obj : Type}.
Variable is_undefined : State → bool.
Variable zero : State.
Variables plus_one minus_one : State → exn + State.
Variable plus_incrementByThis : State → value State Obj → exn + State.
Variable type_of : Obj → prim.

Lemma any_reducer_unknown st a t :
  AnyState.action_type type_of a = inr t →
  unrecognized NumberCounter.recognized t = true →
  (AnyState.numberStore_reducer is_undefined zero plus_one minus_one
     plus_incrementByThis type_of st a).2 =
    inr (if is_undefined st then zero else st).
Proof.
  intros Ht Hun. unfold AnyState.numberStore_reducer. rewrite Ht.
  unfold unrecognized, NumberCounter.recognized in Hun. simpl in Hun.
  destruct (is_string t "INCREMENT"); [done |].
  destruct (is_string t "DECREMENT"); [done |].
  by destruct (is_string t "INCREMENT_BY").
Qed.

Hypothesis zero_defined : is_undefined zero = false.
Hypothesis plus_one_defined : ∀ st st',
  plus_one st = inr st' → is_undefined st' = false.
Hypothesis minus_one_defined : ∀ st st',
  minus_one st = inr st' → is_undefined st' = false.
Hypothesis plus_incrementByThis_defined : ∀ st a st',
  plus_incrementByThis st a = inr st' → is_undefined st' = false.

Lemma any_reducer_defined st a st' :
  (AnyState.numberStore_reducer is_undefined zero plus_one minus_one
     plus_incrementByThis type_of st a).2 = inr st' →
  is_undefined st' = false.
Proof.
  unfold AnyState.numberStore_reducer.
  destruct (AnyState.action_type type_of a) as [e|t]; [done |].
  destruct (is_string t "INCREMENT"); [apply plus_one_defined |].
  destruct (is_string t "DECREMENT"); [apply minus_one_defined |].
  destruct (is_string t "INCREMENT_BY"); [apply plus_incrementByThis_defined |].
  simpl. intros [= <-]. by destruct (is_undefined st) eqn:Hst.
Qed.

Lemma any_reduce_all_defined actions : ∀ st st',
  actions ≠ [] →
  reduce_all (AnyState.numberStore_reducer is_undefined zero plus_one minus_one
     plus_incrementByThis type_of)
    actions st = Some st' →
  is_undefined st' = false.
Proof.
  induction actions as [|a actions IH]; intros st st' Hne; [done |].
  cbn [reduce_all].
  destruct (AnyState.numberStore_reducer is_undefined zero plus_one minus_one
              plus_incrementByThis type_of st a).2 as [e|st1] eqn:Hred; [done |].
  destruct actions as [|b actions].
  - intros [= <-]. by eapply any_reducer_defined.
  - by apply IH.
Qed.

End AnyStateReducer.

(** The reducer of [NumberCounter] is the reducer over any state, at the
    sums of numbers. *)
Lemma counter_reducer_agrees st a :
  NumberCounter.numberStore_reducer st a = AnyState.counter_reducer st a.
Proof.
  unfold NumberCounter.numberStore_reducer, AnyState.counter_reducer,
    AnyState.numberStore_reducer.
  destruct a as [|o|fid body]; simpl; [by destruct st | | by destruct st].
  destruct (is_string (NumberCounter.type o) "INCREMENT"); [by destruct st |].
  destruct (is_string (NumberCounter.type o) "DECREMENT"); [by destruct st |].
  destruct (is_string (NumberCounter.type o) "INCREMENT_BY"); by destruct st.
Qed.

(** * The claims *)

(** C1.  On a store made by [createStore reducer initialState], whatever
    script runs (dispatches, subscribes, reads, callbacks calling back into
    the store), [getState()] afterwards is the reducer folded from the left
    over [initialState] and the actions dispatched, in the order in which
    they were dispatched.  When the listeners are observers, the actions
    dispatched are exactly those of the script: dispatching [a1..an] in
    order returns and leaves the fold of the reducer over [a1..an].  Nothing
    but a dispatch changes the state: [subscribe] and [getState] leave it,
    and a run in which no action was reduced leaves it. *)
Theorem dispatch_sequence_is_left_fold {State Obj : Type}
  (reducer : reducer_type State Obj) :
  (∀ depth script initialState,
     let r := run reducer depth script (createStore initialState) in
     reduce_all reducer (reductions (events r)) initialState =
       Some (state (final r)) ∧
     outcome (getState (final r)) = Returned (RState (state (final r)))) ∧
  (∀ depth actions s st',
     Forall observer (listeners s) →
     reduce_all reducer actions (state s) = Some st' →
     let r := run reducer (S depth) (map (Call "dispatchAction") actions) s in
     returned r = true ∧
     state (final r) = st' ∧
     reductions (events r) = actions) ∧
  (∀ (callback : value State Obj) (s : store State Obj),
     state (final (subscribe callback s)) = state s) ∧
  (∀ s : store State Obj, final (getState s) = s) ∧
  (∀ depth script s,
     reductions (events (run reducer depth script s)) = [] →
     state (final (run reducer depth script s)) = state s).
Proof.
  split; [| split; [| split; [| split]]].
  - intros depth script initialState r. split; [| done].
    apply (folded_run reducer depth script (createStore initialState)).
  - intros depth actions s st' Hobs Hfold r.
    destruct (run_dispatches_observed reducer depth actions s st' Hobs Hfold)
      as (Hret & Hfin & Hred).
    fold r in Hret, Hfin, Hred. by rewrite Hfin.
  - done.
  - done.
  - intros depth script s Hnone.
    pose proof (folded_run reducer depth script s) as Hfold.
    unfold kept, folded in Hfold. rewrite Hnone in Hfold. simpl in Hfold.
    by injection Hfold.
Qed.

(** C2.  When the reducer throws during a dispatch, the dispatch throws the
    same exception, the store is as it was before (the state is assigned
    only once the reducer has returned), no listener is called, and the
    statements after the call do not run: the exception is the caller's. *)
Theorem reducer_exception_leaves_state {State Obj : Type}
  (reducer : reducer_type State Obj) depth action s lines e :
  reducer (state s) action = (lines, inl e) →
  let r := dispatchAction reducer (S depth) action s in
  outcome r = Threw e ∧
  final r = s ∧
  events r = map Printed lines ∧
  invocations (events r) = [] ∧
  reductions (events r) = [] ∧
  (∀ rest, run reducer (S depth) (Call "dispatchAction" action :: rest) s = r).
Proof.
  intros Hred r.
  assert (dispatchAction reducer (S depth) action s =
          Result (Threw e) s (map Printed lines)) as Hr
    by (simpl; by rewrite Hred).
  subst r. rewrite Hr. cbn [outcome final events].
  rewrite invocations_printed, reductions_printed.
  repeat split; try done.
  intros rest. unfold run. cbn [run_body run_stmt].
  by rewrite call_dispatchAction, Hr.
Qed.

(** C4.  A dispatch whose reducer call returns and whose listener calls,
    made one after the other in the order of the list, all return, returns;
    and a dispatch that returns has called every listener that was on the
    list when it started, once for each place it has on the list, in the
    order of the list, whether or not the reducer changed the state (a
    callback subscribed while the dispatch runs is not called by it).  In
    particular a dispatch whose reducer returns and whose listeners are
    observers returns and has called them all.  A dispatch whose reducer
    throws has called no listener, and any dispatch has called the listeners
    of an initial part of the list. *)
Theorem dispatch_invokes_listeners_in_order {State Obj : Type}
  (reducer : reducer_type State Obj) depth action s :
  let r := dispatchAction reducer (S depth) action s in
  (∀ st',
     (reducer (state s) action).2 = inr st' →
     returned (call_all (dispatchAction reducer depth) (listeners s)
                        (Store st' (listeners s))) = true →
     returned r = true) ∧
  (returned r = true → invocations (events r) = listeners s) ∧
  (∀ st',
     (reducer (state s) action).2 = inr st' →
     Forall observer (listeners s) →
     returned r = true ∧ invocations (events r) = listeners s) ∧
  (∀ e, (reducer (state s) action).2 = inl e → invocations (events r) = []) ∧
  invocations (events r) `prefix_of` listeners s.
Proof.
  intros r. split; [| split; [| split; [| split]]].
  - intros st' Hred Hret. subst r. rewrite dispatchAction_unfold.
    destruct (reducer (state s) action) as [lines [e|st'']]; simpl in Hred;
      [done |]. injection Hred as ->. done.
  - apply invocations_dispatchAction.
  - intros st' Hred Hobs.
    destruct (dispatchAction_observed reducer depth action s st' Hobs Hred)
      as (Hret & _ & _ & _ & Hinv). done.
  - intros e Hred. subst r. rewrite dispatchAction_unfold.
    destruct (reducer (state s) action) as [lines [e'|st']]; simpl in Hred;
      [| done]. simpl. apply invocations_printed.
  - apply invocations_dispatchAction_prefix.
Qed.

(** C8.  After any script, the listener list is the list before followed by
    the callbacks passed to [subscribe] during the script, in call order:
    the list never loses an entry, and its length grows by one for each call
    of [subscribe] and by nothing else.  [subscribe] puts its argument at the
    end; [getState] and a dispatch whose listeners do not subscribe leave the
    list as it is. *)
Theorem listeners_only_grow {State Obj : Type}
  (reducer : reducer_type State Obj) :
  (∀ depth script s,
     let r := run reducer depth script s in
     listeners (final r) = listeners s ++ subscriptions (events r) ∧
     length (listeners (final r)) =
       length (listeners s) + length (subscriptions (events r))) ∧
  (∀ depth action s,
     let r := dispatchAction reducer depth action s in
     listeners (final r) = listeners s ++ subscriptions (events r)) ∧
  (∀ (callback : value State Obj) (s : store State Obj),
     listeners (final (subscribe callback s)) = listeners s ++ [callback] ∧
     subscriptions (events (subscribe callback s)) = [callback]) ∧
  (∀ s : store State Obj,
     listeners (final (getState s)) = listeners s ∧
     subscriptions (events (getState s)) = []).
Proof.
  split; [| split; [| split]].
  - intros depth script s r.
    pose proof (grown_run reducer depth script s) as Hgrown.
    unfold kept, grown in Hgrown. fold r in Hgrown.
    split; [done |]. by rewrite Hgrown, length_app.
  - intros depth action s. apply (grown_dispatchAction reducer).
  - done.
  - done.
Qed.

(** C3.  [subscribe] puts the callback at the end of the list and evaluates
    to [undefined]: it hands back no handle, and the store has no operation
    that takes a listener off the list.  After any script, the callback is
    still on the list, after the listeners that were there before it, and a
    dispatch that returns has called it. *)
Theorem subscribe_appends_and_stays {State Obj : Type}
  (reducer : reducer_type State Obj) (f : value State Obj) s :
  subscribe f s =
    Result (Returned RUndef) (Store (state s) (listeners s ++ [f]))
           [Subscribed f] ∧
  (∀ depth script,
     ∃ later,
       listeners (final (run reducer depth script (final (subscribe f s)))) =
       listeners s ++ f :: later) ∧
  (∀ depth script depth' action,
     let s' := final (run reducer depth script (final (subscribe f s))) in
     returned (dispatchAction reducer depth' action s') = true →
     f ∈ invocations (events (dispatchAction reducer depth' action s'))).
Proof.
  assert (∀ depth script, ∃ later,
            listeners (final (run reducer depth script (final (subscribe f s)))) =
            listeners s ++ f :: later) as Hstays.
  { intros depth script.
    pose proof (grown_run reducer depth script (final (subscribe f s))) as Hg.
    unfold kept, grown in Hg.
    eexists. rewrite Hg. simpl. by rewrite <- app_assoc. }
  split; [done | split; [done |]].
  intros depth script depth' action s' Hret.
  rewrite (invocations_dispatchAction reducer _ _ _ Hret).
  destruct (Hstays depth script) as [later Hlater]. subst s'.
  rewrite Hlater. set_solver.
Qed.

(** C5.  [myReducer] gives back its first argument for every state and
    every action whose type is neither UPDATE_BIO nor INCREMENT_NUM.  For
    every action whose type is none of INCREMENT, DECREMENT, INCREMENT_BY,
    the counter's reducer gives back its first argument whenever that is
    not [undefined], whatever kind of value it is, and gives 0 when it is
    [undefined].  A dispatch of an action for which the reducer gives back
    the state stores that same state and calls the listeners on the store
    as it was; if no other action is reduced while it runs, the state
    afterwards is the state before, and with listeners that are observers
    the dispatch returns and leaves the store as it was. *)
Theorem unknown_action_is_identity :
  identity_on_unknown Chapter.myReducer Chapter.action_type
                      Chapter.recognized ∧
  (∀ n a t,
     NumberCounter.action_type a = inr t →
     unrecognized NumberCounter.recognized t = true →
     (NumberCounter.numberStore_reducer (NumberCounter.Number n) a).2 =
       inr (NumberCounter.Number n)) ∧
  (∀ a t,
     NumberCounter.action_type a = inr t →
     unrecognized NumberCounter.recognized t = true →
     (NumberCounter.numberStore_reducer NumberCounter.Undefined a).2 =
       inr (NumberCounter.Number (Num 0))) ∧
  (∀ (State Obj : Type) is_undefined zero plus_one minus_one
     plus_incrementByThis type_of (st : State) (a : value State Obj) t,
     AnyState.action_type type_of a = inr t →
     unrecognized NumberCounter.recognized t = true →
     (AnyState.numberStore_reducer is_undefined zero plus_one minus_one
        plus_incrementByThis type_of st a).2 =
       inr (if is_undefined st then zero else st)) ∧
  (∀ (State Obj : Type) (reducer : reducer_type State Obj) depth action s,
     (reducer (state s) action).2 = inr (state s) →
     let r := dispatchAction reducer (S depth) action s in
     (∃ lines,
        r = after_events (map Printed lines ++ [Reduced action (state s)])
              (call_all (dispatchAction reducer depth) (listeners s) s)) ∧
     (reductions (events r) = [action] → state (final r) = state s) ∧
     (Forall observer (listeners s) →
      returned r = true ∧ final r = s ∧
      outcome (getState (final r)) = Returned (RState (state s)))).
Proof.
  split; [| split; [| split; [| split]]].
  - intros st a t Ht Hun. unfold Chapter.myReducer. rewrite Ht.
    unfold unrecognized, Chapter.recognized in Hun. simpl in Hun.
    destruct (is_string t "UPDATE_BIO"); [done |].
    by destruct (is_string t "INCREMENT_NUM").
  - intros n a t Ht Hun. unfold NumberCounter.numberStore_reducer. rewrite Ht.
    unfold unrecognized, NumberCounter.recognized in Hun. simpl in Hun.
    destruct (is_string t "INCREMENT"); [done |].
    destruct (is_string t "DECREMENT"); [done |].
    by destruct (is_string t "INCREMENT_BY").
  - intros a t Ht Hun. unfold NumberCounter.numberStore_reducer. rewrite Ht.
    unfold unrecognized, NumberCounter.recognized in Hun. simpl in Hun.
    destruct (is_string t "INCREMENT"); [done |].
    destruct (is_string t "DECREMENT"); [done |].
    by destruct (is_string t "INCREMENT_BY").
  - intros State Obj is_undefined zero plus_one minus_one plus_incrementByThis
      type_of st a t. apply any_reducer_unknown.
  - intros State Obj reducer depth action s Hid r. split; [| split].
    + destruct (reducer (state s) action) as [lines next] eqn:Hred.
      simpl in Hid. subst next. exists lines. subst r.
      rewrite (dispatchAction_stores reducer depth action s lines (state s) Hred).
      by destruct s.
    + by apply dispatchAction_single_reduction.
    + intros Hobs.
      destruct (dispatchAction_observed reducer depth action s (state s) Hobs Hid)
        as (Hret & Hfin & _).
      fold r in Hret, Hfin. rewrite Hfin. by destruct s.
Qed.

(** C6.  With [myReducer] on a store starting at
    [{ num: 0, name: '', age: null }], dispatching UPDATE_BIO with name
    "Zak" and age 17 and then INCREMENT_NUM with incrementer 5 returns, and
    [getState()] then gives [{ num: 5, name: 'Zak', age: 17 }].  The
    subscribed listener printed its line once for each dispatch.  Starting
    at [{}], as the last listing does, gives the same object. *)
Theorem bio_scenario :
  let r := run Chapter.myReducer 1 Chapter.walkthrough_dispatchAction
               (createStore Chapter.bio_initial) in
  let expected : gmap string prim :=
    {[ "num" := PNum (Num 5); "name" := PStr "Zak"; "age" := PNum (Num 17) ]} in
  outcome r = Returned RUndef ∧
  outcome (getState (final r)) = Returned (RState expected) ∧
  reductions (events r) = [Chapter.UPDATE_BIO "Zak" 17; Chapter.INCREMENT_NUM 5] ∧
  console (events r) =
    [ [ShowStr "Our state just updated!"];
      [ShowStr "Our state just updated!"];
      [ShowState expected] ] ∧
  state (final (run Chapter.myReducer 1 Chapter.walkthrough_dispatchAction
                    (createStore ∅))) = expected.
Proof. vm_compute. done. Qed.

(** C7.  With the counter's reducer on a store starting at 0 and the
    example's listener subscribed, dispatching INCREMENT, INCREMENT_BY 3 and
    DECREMENT gives the states 1, 4 and 3, and each of the three dispatches
    calls the listener exactly once.  Starting from [undefined], as the
    example does, gives the same. *)
Theorem counter_scenario :
  ∀ start, start = NumberCounter.Number (Num 0) ∨ start = NumberCounter.Undefined →
  let dispatch := dispatchAction NumberCounter.numberStore_reducer 1 in
  let s0 := final (subscribe NumberCounter.numberStore_listener
                             (createStore start)) in
  let r1 := dispatch NumberCounter.INCREMENT s0 in
  let r2 := dispatch (NumberCounter.INCREMENT_BY 3) (final r1) in
  let r3 := dispatch NumberCounter.DECREMENT (final r2) in
  map (λ r, (outcome r, state (final r), invocations (events r))) [r1; r2; r3] =
    [ (Returned RUndef, NumberCounter.Number (Num 1),
       [NumberCounter.numberStore_listener]);
      (Returned RUndef, NumberCounter.Number (Num 4),
       [NumberCounter.numberStore_listener]);
      (Returned RUndef, NumberCounter.Number (Num 3),
       [NumberCounter.numberStore_listener]) ] ∧
  final (run NumberCounter.numberStore_reducer 1
             NumberCounter.numberStore_script (createStore start)) = final r3 ∧
  console (events r1 ++ events r2 ++ events r3) =
    [ [ShowStr "Action just came in:"; ShowValue NumberCounter.INCREMENT];
      [ShowStr "My state just changed!"; ShowState (NumberCounter.Number (Num 1))];
      [ShowStr "Action just came in:"; ShowValue (NumberCounter.INCREMENT_BY 3)];
      [ShowStr "My state just changed!"; ShowState (NumberCounter.Number (Num 4))];
      [ShowStr "Action just came in:"; ShowValue NumberCounter.DECREMENT];
      [ShowStr "My state just changed!"; ShowState (NumberCounter.Number (Num 3))] ].
Proof. intros start [-> | ->]; vm_compute; done. Qed.

(** C9.  The object returned by [createStore] has the keys dispatchAction,
    subscribe and getState and no others; it has no key dispatch, and
    inherits none.  So [store.dispatch(action)] throws a TypeError without
    touching the store, and nothing after it runs: the last listing of the
    chapter, run as written, stops at its first [store.dispatch] with the
    state still [{}]. *)
Theorem store_has_no_dispatch_key :
  map fst createStore_object = ["dispatchAction"; "subscribe"; "getState"] ∧
  own_property createStore_object "dispatch" = None ∧
  ("dispatch" ∉ Object_prototype) ∧
  (∀ (State Obj : Type) (reducer : reducer_type State Obj) depth action rest s,
     run reducer depth (Call "dispatch" action :: rest) s =
       Result (Threw TypeError) s []) ∧
  (∀ depth,
     run Chapter.myReducer depth Chapter.walkthrough_script (createStore ∅) =
       Result (Threw TypeError) (Store ∅ [Chapter.store_listener])
              [Subscribed Chapter.store_listener]).
Proof.
  split; [done | split; [done | split; [| split]]].
  - by apply (bool_decide_unpack ("dispatch" ∉ Object_prototype)).
  - done.
  - done.
Qed.

(** C10.  The INCREMENT_NUM branch of [myReducer] makes [num] the action's
    [incrementer], whatever [num] was, and leaves the other properties: so
    reducing INCREMENT_NUM with incrementer [k] twice leaves [num] at [k],
    and dispatching it twice with 5 from [{ num: 0, ... }] leaves 5, not
    10. *)
Theorem INCREMENT_NUM_overwrites_num :
  (∀ (oldState o : gmap string prim),
     o !! "type" = Some (PStr "INCREMENT_NUM") →
     ∃ newState,
       Chapter.myReducer oldState (VObj o) = ([], inr newState) ∧
       newState !! "num" = Some (Chapter.get o "incrementer") ∧
       ∀ key, key ≠ "num" → newState !! key = oldState !! key) ∧
  (∀ (oldState : gmap string prim) k,
     ∃ newState,
       reduce_all Chapter.myReducer
                  [Chapter.INCREMENT_NUM k; Chapter.INCREMENT_NUM k] oldState =
         Some newState ∧
       newState !! "num" = Some (PNum (Num k))) ∧
  (let r := run Chapter.myReducer 1
                [ Call "dispatchAction" (Chapter.INCREMENT_NUM 5);
                  Call "dispatchAction" (Chapter.INCREMENT_NUM 5) ]
                (createStore Chapter.bio_initial) in
   outcome r = Returned RUndef ∧
   state (final r) !! "num" = Some (PNum (Num 5)) ∧
   state (final r) !! "num" ≠ Some (PNum (Num 10))).
Proof.
  assert (∀ (oldState o : gmap string prim),
     o !! "type" = Some (PStr "INCREMENT_NUM") →
     ∃ newState,
       Chapter.myReducer oldState (VObj o) = ([], inr newState) ∧
       newState !! "num" = Some (Chapter.get o "incrementer") ∧
       ∀ key, key ≠ "num" → newState !! key = oldState !! key) as Hbranch.
  { intros oldState o Htype.
    unfold Chapter.myReducer, Chapter.action_type, Chapter.get. rewrite Htype.
    simpl. eexists. split; [done |]. split.
    - apply lookup_union_Some_l, lookup_singleton_eq.
    - intros key Hkey.
      rewrite lookup_union_r by (by apply lookup_singleton_ne).
      by rewrite lookup_union_l by apply lookup_empty. }
  split; [done | split].
  - intros oldState k. simpl.
    destruct (Hbranch oldState
      {[ "type" := PStr "INCREMENT_NUM"; "incrementer" := PNum (Num k) ]})
      as (st1 & Hred1 & _); [done |].
    destruct (Hbranch st1
      {[ "type" := PStr "INCREMENT_NUM"; "incrementer" := PNum (Num k) ]})
      as (st2 & Hred2 & Hnum & _); [done |].
    unfold Chapter.INCREMENT_NUM. rewrite Hred1. simpl. rewrite Hred2. simpl.
    exists st2. split; [done |]. by rewrite Hnum.
  - vm_compute. done.
Qed.

(** * Instances and counterexamples *)

(** C1 at the counter: three dispatches on a store with the example's
    listener; and a script that only subscribes and prints. *)
Lemma dispatch_sequence_is_left_fold_witness :
  let s := Store (NumberCounter.Number (Num 0))
                 [NumberCounter.numberStore_listener] in
  let actions := [ NumberCounter.INCREMENT; NumberCounter.INCREMENT_BY 3;
                   NumberCounter.DECREMENT ] in
  let r := run NumberCounter.numberStore_reducer 1
               (map (Call "dispatchAction") actions) s in
  let quiet := [ Call "subscribe" NumberCounter.numberStore_listener;
                 Log [LGetState] ] in
  (returned r = true ∧
   state (final r) = NumberCounter.Number (Num 3) ∧
   reductions (events r) = actions) ∧
  state (final (run NumberCounter.numberStore_reducer 1 quiet s)) = state s.
Proof.
  split.
  - apply (proj1 (proj2
             (dispatch_sequence_is_left_fold NumberCounter.numberStore_reducer))).
    + repeat constructor.
    + reflexivity.
  - apply (proj2 (proj2 (proj2 (proj2
             (dispatch_sequence_is_left_fold NumberCounter.numberStore_reducer))))).
    reflexivity.
Defined.

(** C2 at the counter: [dispatchAction()] without an argument makes the
    reducer read [undefined.type]. *)
Lemma reducer_exception_leaves_state_witness :
  let s := Store (NumberCounter.Number (Num 4))
                 [NumberCounter.numberStore_listener] in
  let r := dispatchAction NumberCounter.numberStore_reducer 1 VUndef s in
  outcome r = Threw TypeError ∧
  final r = s ∧
  events r = map Printed [[ShowStr "Action just came in:"; ShowValue VUndef]] ∧
  invocations (events r) = [] ∧
  reductions (events r) = [] ∧
  (∀ rest,
     run NumberCounter.numberStore_reducer 1
         (Call "dispatchAction" VUndef :: rest) s = r).
Proof.
  apply (reducer_exception_leaves_state NumberCounter.numberStore_reducer 0
           VUndef
           (Store (NumberCounter.Number (Num 4))
                  [NumberCounter.numberStore_listener])).
  reflexivity.
Defined.

(** C3 at the counter. *)
Lemma subscribe_appends_and_stays_witness :
  let f := NumberCounter.numberStore_listener in
  let s := createStore (NumberCounter.Number (Num 0)) in
  let s' := final (run NumberCounter.numberStore_reducer 1
                       [Call "dispatchAction" NumberCounter.INCREMENT]
                       (final (subscribe f s))) in
  f ∈ invocations
        (events (dispatchAction NumberCounter.numberStore_reducer 1
                                NumberCounter.DECREMENT s')).
Proof.
  apply (proj2 (proj2
           (subscribe_appends_and_stays NumberCounter.numberStore_reducer
              NumberCounter.numberStore_listener
              (createStore (NumberCounter.Number (Num 0)))))
           1 [Call "dispatchAction" NumberCounter.INCREMENT] 1
           NumberCounter.DECREMENT).
  reflexivity.
Defined.

(** C3 as stated fails: what [subscribe] returns is [undefined]; calling it
    is a TypeError that changes nothing, and the listener is called by the
    next dispatch. *)
Lemma subscribe_returns_no_handle :
  let f := NumberCounter.numberStore_listener in
  let dispatch := dispatchAction NumberCounter.numberStore_reducer 1 in
  let r := subscribe f (createStore (NumberCounter.Number (Num 0))) in
  outcome r = Returned RUndef ∧
  value_of_retval (RUndef : retval NumberCounter.counter_state) =
    Some (VUndef : NumberCounter.value) ∧
  invoke dispatch VUndef (final r) = Result (Threw TypeError) (final r) [] ∧
  listeners (final r) = [f] ∧
  invocations (events (dispatch NumberCounter.INCREMENT (final r))) = [f].
Proof. vm_compute. done. Qed.

(** C4 with the same function on the list twice, around a callback that
    subscribes a third one when it is called, and an action that leaves the
    state as it is. *)
Lemma dispatch_invokes_listeners_in_order_witness :
  let f := NumberCounter.numberStore_listener in
  let h := VFun 2 (λ _, [Log [LStr "late"]]) in
  let g := VFun 1 (λ _, [Call "subscribe" h]) in
  let s := Store (NumberCounter.Number (Num 0)) [f; g; f] in
  let r := dispatchAction NumberCounter.numberStore_reducer 1
             (VObj (NumberCounter.Action (PStr "NOOP") NumberCounter.OUndef)) s in
  returned r = true ∧
  invocations (events r) = [f; g; f] ∧
  listeners (final r) = [f; g; f; h] ∧
  state (final r) = state s.
Proof.
  pose proof (dispatch_invokes_listeners_in_order
                NumberCounter.numberStore_reducer 0
                (VObj (NumberCounter.Action (PStr "NOOP") NumberCounter.OUndef))
                (Store (NumberCounter.Number (Num 0))
                   [ NumberCounter.numberStore_listener;
                     VFun 1 (λ _, [Call "subscribe"
                                     (VFun 2 (λ _, [Log [LStr "late"]]))]);
                     NumberCounter.numberStore_listener ]))
    as (Hreturns & Hcalled & _).
  assert (Hret := Hreturns (NumberCounter.Number (Num 0)) eq_refl eq_refl).
  split; [exact Hret |].
  split; [exact (Hcalled Hret) |].
  split; reflexivity.
Defined.

(** C4 as stated fails when a listener throws: the third listener was on
    the list before the dispatch and is not called by it.  When the reducer
    throws, none is. *)
Lemma throwing_listener_skips_later_listeners :
  let f := NumberCounter.numberStore_listener in
  let g := VFun 1 (λ _, [Throw (Thrown "boom")]) in
  let h := VFun 2 (λ _, [Log [LStr "third"]]) in
  let s := Store (NumberCounter.Number (Num 0)) [f; g; h] in
  let r := dispatchAction NumberCounter.numberStore_reducer 1
                          NumberCounter.INCREMENT s in
  let r' := dispatchAction NumberCounter.numberStore_reducer 1 VUndef s in
  listeners s = [f; g; h] ∧
  outcome r = Threw (Thrown "boom") ∧
  invocations (events r) = [f; g] ∧
  invocations (events r) ≠ listeners s ∧
  outcome r' = Threw TypeError ∧
  invocations (events r') = [].
Proof. repeat split. discriminate. Qed.

(** C5 as stated fails at the counter's reducer: given [undefined] and an
    action of a type it has no branch for (what a store sends first to ask
    for the initial state), it gives 0. *)
Lemma counter_reducer_replaces_undefined :
  let init := VObj (NumberCounter.Action (PStr "@@redux/INIT")
                                         NumberCounter.OUndef) in
  let s := createStore NumberCounter.Undefined in
  let r := dispatchAction NumberCounter.numberStore_reducer 1 init s in
  NumberCounter.action_type init = inr (PStr "@@redux/INIT") ∧
  unrecognized NumberCounter.recognized (PStr "@@redux/INIT") = true ∧
  (NumberCounter.numberStore_reducer NumberCounter.Undefined init).2 =
    inr (NumberCounter.Number (Num 0)) ∧
  outcome (getState s) = Returned (RState NumberCounter.Undefined) ∧
  outcome (getState (final r)) =
    Returned (RState (NumberCounter.Number (Num 0))) ∧
  ¬ identity_on_unknown NumberCounter.numberStore_reducer
      NumberCounter.action_type NumberCounter.recognized.
Proof.
  repeat split.
  intros Hid.
  specialize (Hid NumberCounter.Undefined
    (VObj (NumberCounter.Action (PStr "@@redux/INIT") NumberCounter.OUndef))
    (PStr "@@redux/INIT") eq_refl eq_refl).
  discriminate Hid.
Qed.

(** C5 also needs its condition on the listeners: an action the reducer
    has no branch for, dispatched on a store whose listener dispatches
    INCREMENT until the count is 3, returns with the count at 3. *)
Lemma unknown_action_with_dispatching_listener :
  let noop := VObj (NumberCounter.Action (PStr "NOOP") NumberCounter.OUndef) in
  let again :=
    VFun 7 (λ st, match st with
                  | NumberCounter.Number (Num z) =>
                      if (z <? 3)%Z
                      then [Call "dispatchAction" NumberCounter.INCREMENT]
                      else []
                  | _ => []
                  end) in
  let s := Store (NumberCounter.Number (Num 0)) [again] in
  let r := dispatchAction NumberCounter.numberStore_reducer 4 noop s in
  (NumberCounter.numberStore_reducer (state s) noop).2 = inr (state s) ∧
  outcome r = Returned RUndef ∧
  state (final r) = NumberCounter.Number (Num 3) ∧
  reductions (events r) =
    [noop; NumberCounter.INCREMENT; NumberCounter.INCREMENT;
     NumberCounter.INCREMENT].
Proof. vm_compute. done. Qed.

(** C5 at a number and at a store with the example's listener. *)
Lemma unknown_action_is_identity_witness :
  let noop := VObj (NumberCounter.Action (PStr "NOOP") NumberCounter.OUndef) in
  let s := Store (NumberCounter.Number (Num 7))
                 [NumberCounter.numberStore_listener] in
  let r := dispatchAction NumberCounter.numberStore_reducer 1 noop s in
  (Chapter.myReducer Chapter.bio_initial
     (VObj {[ "type" := PStr "RESET" ]})).2 = inr Chapter.bio_initial ∧
  (NumberCounter.numberStore_reducer (NumberCounter.Number (Num 7)) noop).2 =
    inr (NumberCounter.Number (Num 7)) ∧
  (AnyState.counter_reducer (NumberCounter.Number NaN) noop).2 =
    inr (NumberCounter.Number NaN) ∧
  state (final r) = state s ∧
  (returned r = true ∧ final r = s ∧
   outcome (getState (final r)) =
     Returned (RState (NumberCounter.Number (Num 7)))).
Proof.
  pose proof unknown_action_is_identity
    as (Hbio & Hnumber & _ & Hany & Hstore).
  split; [| split; [| split; [| split]]].
  - apply (Hbio _ _ (PStr "RESET")); reflexivity.
  - apply (Hnumber _ _ (PStr "NOOP")); reflexivity.
  - apply (Hany _ _ AnyState.counter_is_undefined _ _ _ _ NumberCounter.type
             (NumberCounter.Number NaN) _ (PStr "NOOP")); reflexivity.
  - apply (Hstore NumberCounter.counter_state NumberCounter.action
             NumberCounter.numberStore_reducer 0); reflexivity.
  - apply (Hstore NumberCounter.counter_state NumberCounter.action
             NumberCounter.numberStore_reducer 0).
    + reflexivity.
    + repeat constructor.
Defined.

(** C7 from [undefined], as the example starts. *)
Lemma counter_scenario_witness :
  final (run NumberCounter.numberStore_reducer 1
             NumberCounter.numberStore_script
             (createStore NumberCounter.Undefined)) =
  Store (NumberCounter.Number (Num 3)) [NumberCounter.numberStore_listener].
Proof.
  destruct (counter_scenario NumberCounter.Undefined (or_intror eq_refl))
    as (_ & -> & _).
  reflexivity.
Defined.

(** C10 at the action of the chapter. *)
Lemma INCREMENT_NUM_overwrites_num_witness :
  ∃ newState,
    Chapter.myReducer Chapter.bio_initial (Chapter.INCREMENT_NUM 5) =
      ([], inr newState) ∧
    newState !! "num" = Some (PNum (Num 5)).
Proof.
  destruct (proj1 INCREMENT_NUM_overwrites_num Chapter.bio_initial
    {[ "type" := PStr "INCREMENT_NUM"; "incrementer" := PNum (Num 5) ]})
    as (newState & Hred & Hnum & _); [vm_compute; reflexivity |].
  exists newState. split; [exact Hred | exact Hnum].
Defined.

(** A listener that dispatches: asked once to increment, the store counts to
    3, and the state is the fold over the three actions reduced.  With too
    small a bound the run is cut. *)
Example nested_dispatches_are_folded :
  let again :=
    VFun 7 (λ st, match st with
                  | NumberCounter.Number (Num z) =>
                      if (z <? 3)%Z
                      then [Call "dispatchAction" NumberCounter.INCREMENT]
                      else []
                  | _ => []
                  end) in
  let script := [ Call "subscribe" again;
                  Call "dispatchAction" NumberCounter.INCREMENT ] in
  let start := createStore (NumberCounter.Number (Num 0)) in
  let r := run NumberCounter.numberStore_reducer 3 script start in
  outcome r = Returned RUndef ∧
  state (final r) = NumberCounter.Number (Num 3) ∧
  reductions (events r) =
    [NumberCounter.INCREMENT; NumberCounter.INCREMENT; NumberCounter.INCREMENT] ∧
  outcome (run NumberCounter.numberStore_reducer 2 script start) = Exhausted.
Proof. vm_compute. done. Qed.

(** * Further properties of the store *)

Section Stopping.

Context {State Obj : Type}.
Implicit Types (s : store State Obj) (r : result State Obj).
Implicit Types (v f : value State Obj) (fs : list (value State Obj)).

Variable dispatch : value State Obj → store State Obj → result State Obj.

Lemma andThen_assoc r k1 k2 :
  andThen (andThen r k1) k2 = andThen r (λ s, andThen (k1 s) k2).
Proof.
  unfold andThen.
  destruct (outcome r) eqn:Hr; simpl; rewrite ?Hr; try done.
  destruct (outcome (k1 (final r))) eqn:Hk; simpl; rewrite ?Hk; try done.
  by rewrite app_assoc.
Qed.

Lemma run_body_app cs1 cs2 s :
  run_body dispatch (cs1 ++ cs2) s =
  andThen (run_body dispatch cs1 s) (run_body dispatch cs2).
Proof.
  revert s. induction cs1 as [|c cs1 IH]; intros s; simpl.
  - unfold andThen. simpl. by destruct (run_body dispatch cs2 s).
  - rewrite andThen_assoc. apply andThen_ext, IH.
Qed.

Lemma call_all_app fs1 fs2 s :
  call_all dispatch (fs1 ++ fs2) s =
  andThen (call_all dispatch fs1 s) (call_all dispatch fs2).
Proof.
  revert s. induction fs1 as [|f fs1 IH]; intros s; simpl.
  - unfold andThen. simpl. by destruct (call_all dispatch fs2 s).
  - rewrite andThen_assoc. apply andThen_ext, IH.
Qed.

(** Observers, then a callback whose call throws and leaves the store. *)
Lemma call_all_stopped pre f post s e evs :
  Forall observer pre →
  invoke dispatch f s = Result (Threw e) s evs →
  let r := call_all dispatch (pre ++ f :: post) s in
  outcome r = Threw e ∧ final r = s ∧
  invocations (events r) = pre ++ invocations evs ∧
  reductions (events r) = reductions evs.
Proof.
  intros Hobs Hf r. subst r. rewrite call_all_app.
  destruct (silent_call_all dispatch pre s Hobs)
    as [(Hret & Hfin & Hred & _) Hinv].
  unfold returned in Hret.
  destruct (outcome (call_all dispatch pre s)) as [x| |] eqn:Hout; try done.
  rewrite (andThen_returned _ _ x Hout), Hfin. simpl.
  rewrite Hf. unfold andThen. simpl.
  by rewrite invocations_app, reductions_app, Hinv, Hred.
Qed.

Lemma invoke_throwing fid body quiet e rest s :
  body (state s) = quiet ++ Throw e :: rest →
  forallb is_observation quiet = true →
  ∃ inner,
    invoke dispatch (VFun fid body) s
      = Result (Threw e) s [Invoked (VFun fid body) inner] ∧
    reductions inner = [].
Proof.
  intros Hbody Hquiet. simpl. rewrite Hbody, run_body_app.
  destruct (silent_run_body dispatch quiet s Hquiet)
    as (Hret & Hfin & Hred & _).
  unfold returned in Hret.
  destruct (outcome (run_body dispatch quiet s)) as [x| |] eqn:Hout; try done.
  rewrite (andThen_returned _ _ x Hout), Hfin. simpl.
  eexists. split; [done |].
  by rewrite reductions_app, Hred.
Qed.

(** A list with an entry that is not a function: the calls stop at that
    entry or before. *)
Lemma call_all_blocked f (Hf : callable f = false) pre post : ∀ s,
  returned (call_all dispatch (pre ++ f :: post) s) = false ∧
  invocations (events (call_all dispatch (pre ++ f :: post) s))
    `prefix_of` pre.
Proof.
  induction pre as [|p pre IH]; intros s; simpl.
  - unfold andThen. destruct f as [|o|fid body]; simpl; try done.
  - unfold andThen.
    destruct p as [|o|fid body]; simpl;
      try (split; [done | apply prefix_nil]).
    destruct (outcome (run_body dispatch (body (state s)) s)); simpl.
    + destruct (IH (final (run_body dispatch (body (state s)) s)))
        as [Hret Hpre].
      split; [exact Hret | by apply prefix_cons].
    + split; [done | apply prefix_cons, prefix_nil].
    + split; [done | apply prefix_cons, prefix_nil].
Qed.

End Stopping.

Section DepthLemmas.

Context {State Obj : Type}.
Implicit Types (s : store State Obj) (r : result State Obj).

(** Two implementations of the nested dispatch, the second agreeing with
    the first wherever the first is not cut. *)
Variables dispatch1 dispatch2 :
  value State Obj → store State Obj → result State Obj.
Hypothesis agree : ∀ v s,
  outcome (dispatch1 v s) ≠ Exhausted → dispatch2 v s = dispatch1 v s.

Lemma andThen_not_cut r k :
  outcome (andThen r k) ≠ Exhausted →
  outcome r ≠ Exhausted ∧
  (returned r = true → outcome (k (final r)) ≠ Exhausted).
Proof.
  unfold andThen, returned.
  destruct (outcome r) eqn:Hr; simpl; rewrite ?Hr; try done.
Qed.

Lemma andThen_agree r1 r2 k1 k2 :
  outcome (andThen r1 k1) ≠ Exhausted →
  (outcome r1 ≠ Exhausted → r2 = r1) →
  (outcome (k1 (final r1)) ≠ Exhausted → k2 (final r1) = k1 (final r1)) →
  andThen r2 k2 = andThen r1 k1.
Proof.
  intros [Hr Hk]%andThen_not_cut H1 H2. rewrite (H1 Hr).
  unfold andThen, returned in *.
  destruct (outcome r1); try done. by rewrite H2 by auto.
Qed.

Lemma run_stmt_agree c s :
  outcome (run_stmt dispatch1 c s) ≠ Exhausted →
  run_stmt dispatch2 c s = run_stmt dispatch1 c s.
Proof.
  destruct c as [args|key arg|e]; simpl; try done.
  unfold call_member.
  destruct (own_property createStore_object key) as [[]|]; try done.
  apply agree.
Qed.

Lemma run_body_agree cs s :
  outcome (run_body dispatch1 cs s) ≠ Exhausted →
  run_body dispatch2 cs s = run_body dispatch1 cs s.
Proof.
  revert s. induction cs as [|c cs IH]; intros s; simpl; [done |].
  intros Hcut. apply andThen_agree; [done | apply run_stmt_agree | apply IH].
Qed.

Lemma invoke_agree f s :
  outcome (invoke dispatch1 f s) ≠ Exhausted →
  invoke dispatch2 f s = invoke dispatch1 f s.
Proof.
  destruct f as [|o|fid body]; simpl; try done.
  intros Hcut. rewrite run_body_agree; [done |].
  by destruct (outcome (run_body dispatch1 (body (state s)) s)).
Qed.

Lemma forEach_from_agree count : ∀ k s,
  outcome (forEach_from dispatch1 k count s) ≠ Exhausted →
  forEach_from dispatch2 k count s = forEach_from dispatch1 k count s.
Proof.
  induction count as [|count IH]; intros k s; simpl; [done |].
  destruct (listeners s !! k); [| apply IH].
  intros Hcut. apply andThen_agree; [done | apply invoke_agree | apply IH].
Qed.

End DepthLemmas.

Section StoreEdges.

Context {State Obj : Type}.
Variable reducer : reducer_type State Obj.
Implicit Types (s : store State Obj) (r : result State Obj).

Lemma dispatchAction_S depth : ∀ action s,
  outcome (dispatchAction reducer depth action s) ≠ Exhausted →
  dispatchAction reducer (S depth) action s =
  dispatchAction reducer depth action s.
Proof.
  induction depth as [|depth IH]; intros action s; [done |].
  remember (S depth) as d eqn:Hd. simpl. subst d. simpl.
  destruct (reducer (state s) action) as [lines [e|st']]; [done |].
  unfold after_events, forEach. simpl. intros Hcut.
  by rewrite (forEach_from_agree (dispatchAction reducer depth)
                (dispatchAction reducer (S depth)) IH).
Qed.

Lemma dispatchAction_stopped depth action s lines st' pre f post e evs :
  reducer (state s) action = (lines, inr st') →
  listeners s = pre ++ f :: post →
  Forall observer pre →
  invoke (dispatchAction reducer depth) f (Store st' (listeners s))
    = Result (Threw e) (Store st' (listeners s)) evs →
  let r := dispatchAction reducer (S depth) action s in
  outcome r = Threw e ∧
  final r = Store st' (listeners s) ∧
  invocations (events r) = pre ++ invocations evs ∧
  reductions (events r) = action :: reductions evs.
Proof.
  intros Hred Hls Hobs Hf r. subst r.
  rewrite dispatchAction_unfold, Hred.
  destruct (call_all_stopped (dispatchAction reducer depth) pre f post
              (Store st' (listeners s)) e evs Hobs Hf)
    as (Hout & Hfin & Hinv & Hr).
  rewrite <- Hls in Hout, Hfin, Hinv, Hr.
  unfold after_events. simpl.
  rewrite !invocations_app, !reductions_app, invocations_printed,
    reductions_printed, Hout, Hfin, Hinv, Hr.
  done.
Qed.

End StoreEdges.

(** X1.  A listener that throws does so after the new state has been
    stored: the dispatch throws the listener's exception, [getState()] gives
    the new state, the listeners before it on the list have been called and
    those after it have not. *)
Theorem listener_exception_after_commit {State Obj : Type}
  (reducer : reducer_type State Obj) depth action s lines st'
  pre fid body post quiet e rest :
  reducer (state s) action = (lines, inr st') →
  listeners s = pre ++ VFun fid body :: post →
  Forall observer pre →
  body st' = quiet ++ Throw e :: rest →
  forallb is_observation quiet = true →
  let r := dispatchAction reducer (S depth) action s in
  outcome r = Threw e ∧
  final r = Store st' (listeners s) ∧
  outcome (getState (final r)) = Returned (RState st') ∧
  invocations (events r) = pre ++ [VFun fid body] ∧
  reductions (events r) = [action].
Proof.
  intros Hred Hls Hobs Hbody Hquiet r.
  destruct (invoke_throwing (dispatchAction reducer depth) fid body quiet e rest
              (Store st' (listeners s)) Hbody Hquiet) as (inner & Hf & Hinner).
  destruct (dispatchAction_stopped reducer depth action s lines st' pre
              (VFun fid body) post e _ Hred Hls Hobs Hf)
    as (Hout & Hfin & Hinv & Hr).
  fold r in Hout, Hfin, Hinv, Hr.
  rewrite reductions_invoked, Hinner in Hr.
  by rewrite Hout, Hfin, Hinv, Hr.
Qed.

(** X2.  [subscribe] takes anything, function or not.  Once something that
    is not a function is on the list, no dispatch returns: whatever the
    reducer and whatever the other listeners do, a dispatch throws or runs
    out of stack, and it calls none of the listeners that come after that
    entry.  When its reducer returns and the listeners before the entry are
    observers, the dispatch stores the new state, calls those listeners,
    throws a TypeError and leaves the list as it was. *)
Theorem non_function_listener_breaks_dispatch {State Obj : Type}
  (reducer : reducer_type State Obj) (f : value State Obj) :
  callable f = false →
  (∀ s0, outcome (subscribe f s0) = Returned RUndef ∧
         listeners (final (subscribe f s0)) = listeners s0 ++ [f]) ∧
  (∀ depth action s pre post,
     listeners s = pre ++ f :: post →
     let r := dispatchAction reducer depth action s in
     returned r = false ∧
     invocations (events r) `prefix_of` pre) ∧
  (∀ depth action s lines st' pre post,
     reducer (state s) action = (lines, inr st') →
     listeners s = pre ++ f :: post →
     Forall observer pre →
     let r := dispatchAction reducer (S depth) action s in
     outcome r = Threw TypeError ∧
     final r = Store st' (listeners s) ∧
     invocations (events r) = pre).
Proof.
  intros Hf. split; [done | split].
  - intros depth action s pre post Hls r. subst r.
    destruct depth as [|depth]; [split; [done | apply prefix_nil] |].
    rewrite dispatchAction_unfold.
    destruct (reducer (state s) action) as [lines [e|st']].
    + simpl. rewrite invocations_printed. split; [done | apply prefix_nil].
    + rewrite Hls.
      destruct (call_all_blocked (dispatchAction reducer depth) f Hf pre post
                  (Store st' (pre ++ f :: post))) as [Hret Hpre].
      unfold after_events, returned in *. cbn [outcome events].
      rewrite !invocations_app, invocations_printed.
      split; [exact Hret | exact Hpre].
  - intros depth action s lines st' pre post Hred Hls Hobs r.
    assert (invoke (dispatchAction reducer depth) f (Store st' (listeners s))
            = Result (Threw TypeError) (Store st' (listeners s)) []) as Hinv
      by (by destruct f).
    destruct (dispatchAction_stopped reducer depth action s lines st' pre
                f post TypeError [] Hred Hls Hobs Hinv)
      as (Hout & Hfin & Hi & _).
    fold r in Hout, Hfin, Hi. rewrite Hout, Hfin, Hi. simpl.
    by rewrite app_nil_r.
Qed.

(** X3.  Of all the members a caller can reach on the store object, only
    [dispatchAction] and [subscribe] change the store: calling any other
    key, defined or not, leaves the state and the listeners and does
    nothing. *)
Theorem only_two_members_change_store {State Obj : Type}
  (dispatch : value State Obj → store State Obj → result State Obj)
  key arg s :
  key ≠ "dispatchAction" → key ≠ "subscribe" →
  final (call_member dispatch key arg s) = s ∧
  events (call_member dispatch key arg s) = [].
Proof.
  intros Hd Hs. unfold call_member, createStore_object. cbn [own_property].
  destruct (String.eqb_spec "dispatchAction" key) as [<-|_]; [done |].
  destruct (String.eqb_spec "subscribe" key) as [<-|_]; [done |].
  destruct (String.eqb "getState" key); [done |].
  by case_bool_decide.
Qed.

(** X4.  The bound on nested dispatches does not shape the result: a
    dispatch that is not cut at some bound gives the same result at every
    larger bound. *)
Theorem dispatchAction_depth_irrelevant {State Obj : Type}
  (reducer : reducer_type State Obj) (depth depth' : nat) action s :
  (depth ≤ depth')%nat →
  outcome (dispatchAction reducer depth action s) ≠ Exhausted →
  dispatchAction reducer depth' action s =
  dispatchAction reducer depth action s.
Proof.
  induction 1 as [|depth' Hle IH]; intros Hcut; [done |].
  rewrite <- (IH Hcut). apply dispatchAction_S. by rewrite (IH Hcut).
Qed.

Section Console.

Context {State Obj : Type}.
Implicit Types (s : store State Obj) (r : result State Obj).
Implicit Types (f : value State Obj) (fs : list (value State Obj)).

Variable dispatch : value State Obj → store State Obj → result State Obj.

Lemma console_app (evs1 evs2 : list (event State Obj)) :
  console (evs1 ++ evs2) = console evs1 ++ console evs2.
Proof. apply flat_map_app. Qed.

Lemma console_printed (lines : list (list (shown State Obj))) :
  console (map Printed lines) = lines.
Proof. induction lines as [|l lines IH]; simpl; [done | by f_equal]. Qed.

Lemma console_run_body cs s :
  forallb is_observation cs = true →
  console (events (run_body dispatch cs s)) = lines_of s cs.
Proof.
  induction cs as [|c cs IH]; simpl; [done |].
  intros [Hc Hcs]%andb_prop.
  destruct (silent_run_stmt dispatch c s Hc) as (Hret & Hfin & _).
  unfold returned in Hret.
  destruct (outcome (run_stmt dispatch c s)) as [x| |] eqn:Hout; try done.
  rewrite (andThen_returned _ _ x Hout), Hfin. simpl.
  rewrite console_app, (IH Hcs). f_equal.
  destruct c as [args|key arg|e]; simpl in *; [done | | done].
  apply String.eqb_eq in Hc as ->. done.
Qed.

Lemma console_invoke f s :
  observer f →
  console (events (invoke dispatch f s)) = listener_lines s f.
Proof.
  destruct f as [|o|fid body]; simpl; try done.
  intros Hobs. unfold console. simpl. rewrite app_nil_r.
  apply console_run_body, Hobs.
Qed.

Lemma console_call_all fs s :
  Forall observer fs →
  console (events (call_all dispatch fs s)) = flat_map (listener_lines s) fs.
Proof.
  induction 1 as [|f fs Hf Hfs IH]; simpl; [done |].
  destruct (silent_invoke dispatch f s Hf) as [(Hret & Hfin & _) _].
  unfold returned in Hret.
  destruct (outcome (invoke dispatch f s)) as [x| |] eqn:Hout; try done.
  rewrite (andThen_returned _ _ x Hout), Hfin.
  cbn [events]. by rewrite console_app, IH, console_invoke.
Qed.


End Console.

(** X5.  What a dispatch prints when its listeners are observers: the
    reducer's lines, then the lines of each listener in the order of the
    list, and wherever a listener prints [store.getState()] it prints the
    new state: the state is stored before the first listener runs. *)
Theorem listeners_see_new_state {State Obj : Type}
  (reducer : reducer_type State Obj) depth action s lines st' :
  reducer (state s) action = (lines, inr st') →
  Forall observer (listeners s) →
  console (events (dispatchAction reducer (S depth) action s)) =
    lines ++ flat_map (listener_lines (Store st' (listeners s))) (listeners s).
Proof.
  intros Hred Hobs. rewrite dispatchAction_unfold, Hred.
  unfold after_events. cbn [events].
  rewrite !console_app, console_printed, console_call_all by done.
  change (console [Reduced action st']) with (@nil (list (shown State Obj))).
  by rewrite app_nil_r.
Qed.



(** * Further properties of the counter's reducer *)

Section CounterReducer.

Import NumberCounter.

Lemma reducer_delta z a k :
  delta a = Some k →
  (numberStore_reducer (Number (Num z)) a).2 = inr (Number (Num (z + k))) ∧
  (numberStore_reducer Undefined a).2 = inr (Number (Num (0 + k))).
Proof.
  unfold delta, numberStore_reducer.
  destruct (action_type a) as [e|t]; [done |].
  destruct (is_string t "INCREMENT"); [by intros [= <-] |].
  destruct (is_string t "DECREMENT"); [by intros [= <-] |].
  destruct (is_string t "INCREMENT_BY").
  - destruct (ToNumber (action_incrementByThis a)); [by intros [= <-] | done].
  - intros [= <-]. simpl. by rewrite !Z.add_0_r.
Qed.

Lemma stays_safe_counts actions : ∀ z,
  stays_safe z actions →
  reduce_all numberStore_reducer actions (Number (Num z)) =
    Some (Number (Num (z + change actions))).
Proof.
  induction actions as [|a actions IH]; intros z; simpl.
  - intros _. by rewrite Z.add_0_r.
  - intros (_ & k & Hk & _ & Hrest).
    destruct (reducer_delta z a k Hk) as [-> _]. rewrite Hk. simpl.
    rewrite (IH _ Hrest). by rewrite Z.add_assoc.
Qed.

Lemma stays_safe_deltas z actions :
  stays_safe z actions → Forall (λ a, is_Some (delta a)) actions.
Proof.
  revert z. induction actions as [|a actions IH]; intros z; simpl; [done |].
  intros (_ & k & Hk & _ & Hrest). constructor; [by rewrite Hk | by eapply IH].
Qed.

Lemma change_permutation actions actions' :
  actions ≡ₚ actions' → change actions = change actions'.
Proof.
  induction 1 as [|a l l' _ IH|a b l|l1 l2 l3 _ IH12 _ IH23]; simpl.
  - done.
  - by rewrite IH.
  - lia.
  - by rewrite IH12.
Qed.

Lemma reducer_from_NaN a :
  (numberStore_reducer (Number NaN) a).2 = inr (Number NaN) ∨
  ∃ e, (numberStore_reducer (Number NaN) a).2 = inl e.
Proof.
  unfold numberStore_reducer.
  destruct (action_type a) as [e|t]; [right; by eexists |]. left.
  destruct (is_string t "INCREMENT"); [done |].
  destruct (is_string t "DECREMENT"); [done |].
  by destruct (is_string t "INCREMENT_BY").
Qed.

End CounterReducer.

(** X7.  Counting with whole numbers: starting from [z], the counter's
    reducer folded over any list of actions leaves [z] plus the sum of what
    each action adds (1, -1, its [incrementByThis], or 0 for a type it has
    no branch for), as long as the operands and the intermediate counts are
    integers a double holds exactly.  Starting from [undefined] counts from
    0. *)
Theorem counter_adds_up z actions :
  NumberCounter.stays_safe z actions →
  reduce_all NumberCounter.numberStore_reducer actions
             (NumberCounter.Number (Num z)) =
    Some (NumberCounter.Number (Num (z + NumberCounter.change actions))) ∧
  (z = 0%Z → actions ≠ [] →
   reduce_all NumberCounter.numberStore_reducer actions NumberCounter.Undefined =
     Some (NumberCounter.Number (Num (NumberCounter.change actions)))).
Proof.
  intros Hsafe. split; [by apply stays_safe_counts |].
  intros -> Hne. destruct actions as [|a actions]; [done |].
  simpl in *. destruct Hsafe as (_ & k & Hk & _ & Hrest).
  destruct (reducer_delta 0 a k Hk) as [_ ->]. rewrite Hk. simpl.
  by rewrite (stays_safe_counts _ _ Hrest).
Qed.

(** X8.  The order of the counter's actions does not matter: two lists with
    the same actions in a different order leave the same count, as long as
    both stay within the integers a double holds exactly. *)
Theorem counter_order_irrelevant z actions actions' :
  actions ≡ₚ actions' →
  NumberCounter.stays_safe z actions →
  NumberCounter.stays_safe z actions' →
  reduce_all NumberCounter.numberStore_reducer actions
             (NumberCounter.Number (Num z)) =
  reduce_all NumberCounter.numberStore_reducer actions'
             (NumberCounter.Number (Num z)).
Proof.
  intros Hperm Hsafe Hsafe'.
  rewrite (stays_safe_counts _ _ Hsafe), (stays_safe_counts _ _ Hsafe').
  by rewrite (change_permutation _ _ Hperm).
Qed.

(** X9.  With payloads that are [undefined], [null], booleans or numbers
    (no string, BigInt, Symbol or object under [incrementByThis]): an
    INCREMENT_BY action without [incrementByThis] makes the count NaN,
    whatever number it was or if it was [undefined], and a NaN count stays
    NaN, no list of such actions brings it back to a number. *)
Theorem counter_NaN_is_absorbing :
  (∀ st,
     (NumberCounter.numberStore_reducer st
        (VObj (NumberCounter.Action (PStr "INCREMENT_BY") NumberCounter.OUndef))).2
     = inr (NumberCounter.Number NaN)) ∧
  (∀ actions st',
     reduce_all NumberCounter.numberStore_reducer actions
                (NumberCounter.Number NaN) = Some st' →
     st' = NumberCounter.Number NaN).
Proof.
  split; [by intros [|[]] |].
  induction actions as [|a actions IH]; intros st'; simpl; [by intros [= <-] |].
  destruct (reducer_from_NaN a) as [-> | [e ->]]; [apply IH | done].
Qed.

(** X10.  On a store with the counter's reducer, whatever kind of value
    the state and the payloads are: given that [0] is not [undefined] and
    that [+] and [-] never evaluate to [undefined], once any action has been
    reduced [getState()] is not [undefined], and never is again, whatever
    the store started from and whatever the listeners do. *)
Theorem counter_state_defined_after_dispatch {State Obj : Type}
  (is_undefined : State → bool) zero plus_one minus_one
  (plus_incrementByThis : State → value State Obj → exn + State) type_of :
  is_undefined zero = false →
  (∀ st st', plus_one st = inr st' → is_undefined st' = false) →
  (∀ st st', minus_one st = inr st' → is_undefined st' = false) →
  (∀ st a st', plus_incrementByThis st a = inr st' → is_undefined st' = false) →
  ∀ depth script s,
    let r := run (AnyState.numberStore_reducer is_undefined zero plus_one
                    minus_one plus_incrementByThis type_of) depth script s in
    reductions (events r) ≠ [] →
    ∃ st, outcome (getState (final r)) = Returned (RState st) ∧
          is_undefined st = false.
Proof.
  intros Hzero Hplus Hminus Hpayload depth script s r Hne.
  pose proof (folded_run (AnyState.numberStore_reducer is_undefined zero
                plus_one minus_one plus_incrementByThis type_of)
                depth script s) as Hfold.
  unfold kept, folded in Hfold. fold r in Hfold.
  exists (state (final r)). split; [done |].
  by eapply (any_reduce_all_defined is_undefined zero plus_one minus_one
               plus_incrementByThis type_of Hzero Hplus Hminus Hpayload).
Qed.

(** * Further properties of myReducer *)

Section BioReducer.

Import Chapter.
Implicit Types (old o : gmap string prim).

Lemma Object_assign_two (a b : gmap string prim) :
  Object_assign ∅ [a; b] = b ∪ a.
Proof. unfold Object_assign. simpl. by rewrite (right_id_L ∅ (∪)). Qed.

Lemma myReducer_UPDATE_BIO old o :
  o !! "type" = Some (PStr "UPDATE_BIO") →
  myReducer old (VObj o) =
    ([], inr ({[ "name" := get o "name"; "age" := get o "age" ]} ∪ old)).
Proof.
  intros Ht.
  assert (action_type (VObj o) = inr (PStr "UPDATE_BIO")) as Htype
    by (unfold action_type, get; by rewrite Ht).
  unfold myReducer. rewrite Htype.
  change (is_string (PStr "UPDATE_BIO") "UPDATE_BIO") with true.
  cbv iota. by rewrite Object_assign_two.
Qed.

Lemma myReducer_INCREMENT_NUM old o :
  o !! "type" = Some (PStr "INCREMENT_NUM") →
  myReducer old (VObj o) =
    ([], inr ({[ "num" := get o "incrementer" ]} ∪ old)).
Proof.
  intros Ht.
  assert (action_type (VObj o) = inr (PStr "INCREMENT_NUM")) as Htype
    by (unfold action_type, get; by rewrite Ht).
  unfold myReducer. rewrite Htype.
  change (is_string (PStr "INCREMENT_NUM") "UPDATE_BIO") with false.
  change (is_string (PStr "INCREMENT_NUM") "INCREMENT_NUM") with true.
  cbv iota. by rewrite Object_assign_two.
Qed.

(** Whatever the action, the next state is some properties laid over the
    old state. *)
Lemma myReducer_overlay old a new :
  (myReducer old a).2 = inr new → ∃ props, new = props ∪ old.
Proof.
  unfold myReducer. destruct (action_type a) as [e|t]; [done |].
  destruct (is_string t "UPDATE_BIO");
    [rewrite Object_assign_two; intros [= <-]; by eexists |].
  destruct (is_string t "INCREMENT_NUM");
    [rewrite Object_assign_two; intros [= <-]; by eexists |].
  intros [= <-]. exists ∅. by rewrite (left_id_L ∅ (∪)).
Qed.

Lemma reduce_all_step {State Obj : Type} (reducer : reducer_type State Obj)
  a rest st st' :
  (reducer st a).2 = inr st' →
  reduce_all reducer (a :: rest) st = reduce_all reducer rest st'.
Proof. intros Hred. simpl. by rewrite Hred. Qed.

Lemma union_twice (a b : gmap string prim) : a ∪ (a ∪ b) = a ∪ b.
Proof. by rewrite (assoc_L (∪)), (idemp_L (∪)). Qed.

Lemma myReducer_twice old a new :
  (myReducer old a).2 = inr new → (myReducer new a).2 = inr new.
Proof.
  unfold myReducer. destruct (action_type a) as [e|t]; [done |].
  destruct (is_string t "UPDATE_BIO").
  { rewrite !Object_assign_two. intros [= <-]. simpl. by rewrite union_twice. }
  destruct (is_string t "INCREMENT_NUM").
  { rewrite !Object_assign_two. intros [= <-]. simpl. by rewrite union_twice. }
  by intros [= <-].
Qed.

End BioReducer.

(** X12.  UPDATE_BIO makes [name] and [age] what the action has under those
    keys and leaves every other property; a key the action lacks is stored
    as [undefined], so an UPDATE_BIO without a name wipes the name that was
    there. *)
Theorem UPDATE_BIO_overwrites_name_and_age (oldState o : gmap string prim) :
  o !! "type" = Some (PStr "UPDATE_BIO") →
  ∃ newState,
    Chapter.myReducer oldState (VObj o) = ([], inr newState) ∧
    newState !! "name" = Some (Chapter.get o "name") ∧
    newState !! "age" = Some (Chapter.get o "age") ∧
    (∀ key, key ≠ "name" → key ≠ "age" → newState !! key = oldState !! key) ∧
    (o !! "name" = None → newState !! "name" = Some PUndef).
Proof.
  intros Ht. eexists. split; [by apply myReducer_UPDATE_BIO |].
  split; [| split; [| split]].
  - apply lookup_union_Some_l. by rewrite lookup_insert_eq.
  - apply lookup_union_Some_l.
    rewrite lookup_insert_ne by done. by rewrite lookup_singleton_eq.
  - intros key Hname Hage. apply lookup_union_r.
    rewrite lookup_insert_ne by done. by rewrite lookup_singleton_ne.
  - intros Hnone. apply lookup_union_Some_l.
    rewrite lookup_insert_eq. unfold Chapter.get. by rewrite Hnone.
Qed.

(** X13.  The state of a store with [myReducer] never loses a property:
    after any script, every key [getState()] had before is still there. *)
Theorem bio_state_keeps_its_keys depth script
  (s : store (gmap string prim) (gmap string prim)) :
  dom (state s) ⊆ dom (state (final (run Chapter.myReducer depth script s))).
Proof.
  apply (kept_run Chapter.myReducer
           (λ s1 _ s2, dom (state s1) ⊆ dom (state s2))); try done.
  - intros s1 _ s2 _ s3 H12 H23. by etrans.
  - intros s0 a lines st' Hred. simpl.
    destruct (myReducer_overlay (state s0) a st') as [props ->];
      [by rewrite Hred |].
    rewrite dom_union_L. set_solver.
Qed.

(** X14.  [myReducer] is idempotent: reducing the same action twice in a row
    gives what reducing it once gives, for every state and every action. *)
Theorem myReducer_idempotent (oldState : gmap string prim) action :
  reduce_all Chapter.myReducer [action; action] oldState =
  reduce_all Chapter.myReducer [action] oldState.
Proof.
  cbn [reduce_all].
  destruct (Chapter.myReducer oldState action).2 as [e|new] eqn:Hred;
    [done |].
  by rewrite (myReducer_twice _ _ _ Hred).
Qed.

(** X15.  The last action of a type wins: after two UPDATE_BIO actions the
    state is what the second alone would have left, and likewise for two
    INCREMENT_NUM actions. *)
Theorem myReducer_last_write_wins (oldState o1 o2 : gmap string prim) t :
  t = "UPDATE_BIO" ∨ t = "INCREMENT_NUM" →
  o1 !! "type" = Some (PStr t) →
  o2 !! "type" = Some (PStr t) →
  reduce_all Chapter.myReducer [VObj o1; VObj o2] oldState =
  reduce_all Chapter.myReducer [VObj o2] oldState.
Proof.
  intros [-> | ->] H1 H2.
  - repeat (erewrite reduce_all_step;
              [| rewrite myReducer_UPDATE_BIO by done; reflexivity]).
    cbn [reduce_all]. f_equal.
    apply (map_eq (M := gmap string)). intros key.
    rewrite !lookup_union, !lookup_insert, !lookup_singleton.
    repeat case_decide; by destruct (oldState !! key).
  - repeat (erewrite reduce_all_step;
              [| rewrite myReducer_INCREMENT_NUM by done; reflexivity]).
    cbn [reduce_all]. f_equal.
    apply (map_eq (M := gmap string)). intros key.
    rewrite !lookup_union, !lookup_singleton.
    repeat case_decide; by destruct (oldState !! key).
Qed.

(** X16.  UPDATE_BIO and INCREMENT_NUM commute: reducing one and then the
    other leaves the same state in either order. *)
Theorem UPDATE_BIO_INCREMENT_NUM_commute (oldState o1 o2 : gmap string prim) :
  o1 !! "type" = Some (PStr "UPDATE_BIO") →
  o2 !! "type" = Some (PStr "INCREMENT_NUM") →
  reduce_all Chapter.myReducer [VObj o1; VObj o2] oldState =
  reduce_all Chapter.myReducer [VObj o2; VObj o1] oldState.
Proof.
  intros H1 H2.
  repeat (erewrite reduce_all_step;
            [| first [ rewrite myReducer_UPDATE_BIO by done
                     | rewrite myReducer_INCREMENT_NUM by done ];
               reflexivity]).
  cbn [reduce_all]. f_equal.
  apply (map_eq (M := gmap string)). intros key.
  rewrite !lookup_union, !lookup_insert, !lookup_singleton.
  destruct (oldState !! key); repeat case_decide; by simplify_eq.
Qed.

(** X17.  Turning [updateBio] into an action kept what it does: for every
    state, [myReducer] at [{ type: 'UPDATE_BIO', name, age }] gives the
    state that the function [updateBio] passes to [updateState] returns.
    So a dispatch of that action during which no other action is reduced
    leaves that state, and with listeners that are observers it returns and
    leaves that state. *)
Theorem UPDATE_BIO_is_updateBio (name age : prim) :
  let action : Chapter.value :=
    VObj {[ "type" := PStr "UPDATE_BIO"; "name" := name; "age" := age ]} in
  (∀ oldState,
     Chapter.myReducer oldState action =
       ([], inr (Chapter.updateBio_modifier name age oldState))) ∧
  (∀ depth s,
     let r := dispatchAction Chapter.myReducer depth action s in
     reductions (events r) = [action] →
     state (final r) = Chapter.updateBio_modifier name age (state s)) ∧
  (∀ depth s,
     let r := dispatchAction Chapter.myReducer (S depth) action s in
     Forall observer (listeners s) →
     returned r = true ∧
     state (final r) = Chapter.updateBio_modifier name age (state s)).
Proof.
  intros action.
  assert (∀ oldState,
            Chapter.myReducer oldState action =
              ([], inr (Chapter.updateBio_modifier name age oldState))) as Hred.
  { intros oldState. unfold action. rewrite myReducer_UPDATE_BIO by done.
    unfold Chapter.updateBio_modifier. by rewrite Object_assign_two. }
  split; [done | split].
  - intros depth s r. apply dispatchAction_single_reduction.
    by rewrite Hred.
  - intros depth s r Hobs.
    destruct (dispatchAction_observed Chapter.myReducer depth action s
                (Chapter.updateBio_modifier name age (state s)) Hobs)
      as (Hret & Hfin & _); [by rewrite Hred |].
    fold r in Hret, Hfin. by rewrite Hfin.
Qed.

(** * Instances of the further properties *)

(** X1 at the counter: the second of three listeners prints and throws. *)
Lemma listener_exception_after_commit_witness :
  let f := NumberCounter.numberStore_listener in
  let g := VFun 5 (λ _, [ Log [LStr "before"]; Throw (Thrown "boom");
                          Log [LStr "after"] ]) in
  let s := Store (NumberCounter.Number (Num 0)) [f; g; f] in
  let r := dispatchAction NumberCounter.numberStore_reducer 1
                          NumberCounter.INCREMENT s in
  outcome r = Threw (Thrown "boom") ∧
  final r = Store (NumberCounter.Number (Num 1)) [f; g; f] ∧
  outcome (getState (final r)) =
    Returned (RState (NumberCounter.Number (Num 1))) ∧
  invocations (events r) = [f] ++ [g] ∧
  reductions (events r) = [NumberCounter.INCREMENT].
Proof.
  apply (listener_exception_after_commit NumberCounter.numberStore_reducer 0
           NumberCounter.INCREMENT
           (Store (NumberCounter.Number (Num 0)) _)
           [[ShowStr "Action just came in:"; ShowValue NumberCounter.INCREMENT]]
           (NumberCounter.Number (Num 1))
           [NumberCounter.numberStore_listener] 5 _
           [NumberCounter.numberStore_listener]
           [Log [LStr "before"]] (Thrown "boom") [Log [LStr "after"]]).
  - reflexivity.
  - reflexivity.
  - repeat constructor.
  - reflexivity.
  - reflexivity.
Defined.

(** X2 at the counter: [subscribe()] without an argument, after a
    listener; and the same list with a listener that throws first. *)
Lemma non_function_listener_breaks_dispatch_witness :
  let f := NumberCounter.numberStore_listener in
  let g := VFun 1 (λ _, [Throw (Thrown "boom")]) in
  let s0 := Store (NumberCounter.Number (Num 0)) [f] in
  let s := final (subscribe VUndef s0) in
  let r := dispatchAction NumberCounter.numberStore_reducer 1
                          NumberCounter.INCREMENT s in
  let r' := dispatchAction NumberCounter.numberStore_reducer 1
              NumberCounter.INCREMENT
              (Store (NumberCounter.Number (Num 0)) [g; f; VUndef; f]) in
  (outcome r = Threw TypeError ∧
   final r = Store (NumberCounter.Number (Num 1)) [f; VUndef] ∧
   invocations (events r) = [f]) ∧
  (returned r' = false ∧ invocations (events r') `prefix_of` [g; f]).
Proof.
  pose proof (non_function_listener_breaks_dispatch
                NumberCounter.numberStore_reducer VUndef eq_refl)
    as (_ & Hnever & Hthrows).
  split.
  - apply (Hthrows 0 NumberCounter.INCREMENT
             (Store (NumberCounter.Number (Num 0))
                    [NumberCounter.numberStore_listener; VUndef])
             [[ShowStr "Action just came in:"; ShowValue NumberCounter.INCREMENT]]
             (NumberCounter.Number (Num 1))
             [NumberCounter.numberStore_listener] []).
    + reflexivity.
    + reflexivity.
    + repeat constructor.
  - apply (Hnever 1 NumberCounter.INCREMENT
             (Store (NumberCounter.Number (Num 0))
                [ VFun 1 (λ _, [Throw (Thrown "boom")]);
                  NumberCounter.numberStore_listener; VUndef;
                  NumberCounter.numberStore_listener ])
             [ VFun 1 (λ _, [Throw (Thrown "boom")]);
               NumberCounter.numberStore_listener ]
             [NumberCounter.numberStore_listener]).
    reflexivity.
Defined.

(** X3 at a key the object lacks and at [getState]. *)
Lemma only_two_members_change_store_witness :
  let s := Store (NumberCounter.Number (Num 2))
                 [NumberCounter.numberStore_listener] in
  let dispatch := dispatchAction NumberCounter.numberStore_reducer 1 in
  (final (call_member dispatch "state" NumberCounter.INCREMENT s) = s ∧
   events (call_member dispatch "state" NumberCounter.INCREMENT s) = []) ∧
  (final (call_member dispatch "getState" VUndef s) = s ∧
   events (call_member dispatch "getState" VUndef s) = []).
Proof.
  split.
  - apply (only_two_members_change_store
             (dispatchAction NumberCounter.numberStore_reducer 1) "state");
      discriminate.
  - apply (only_two_members_change_store
             (dispatchAction NumberCounter.numberStore_reducer 1) "getState");
      discriminate.
Defined.

(** X4 at a listener that dispatches until the count is 3. *)
Lemma dispatchAction_depth_irrelevant_witness :
  let again :=
    VFun 7 (λ st, match st with
                  | NumberCounter.Number (Num z) =>
                      if (z <? 3)%Z
                      then [Call "dispatchAction" NumberCounter.INCREMENT]
                      else []
                  | _ => []
                  end) in
  let s := Store (NumberCounter.Number (Num 0)) [again] in
  dispatchAction NumberCounter.numberStore_reducer 40
                 NumberCounter.INCREMENT s =
  dispatchAction NumberCounter.numberStore_reducer 3
                 NumberCounter.INCREMENT s.
Proof.
  apply (dispatchAction_depth_irrelevant NumberCounter.numberStore_reducer 3 40).
  - lia.
  - discriminate.
Defined.

(** X5 at the counter with two listeners. *)
Lemma listeners_see_new_state_witness :
  let f := NumberCounter.numberStore_listener in
  let g := VFun 1 (λ _, [Log [LGetState; LStr "is the count"]]) in
  let s := Store (NumberCounter.Number (Num 6)) [f; g] in
  console (events (dispatchAction NumberCounter.numberStore_reducer 1
                                  NumberCounter.DECREMENT s)) =
    [[ShowStr "Action just came in:"; ShowValue NumberCounter.DECREMENT]] ++
    [ [ShowStr "My state just changed!";
       ShowState (NumberCounter.Number (Num 5))];
      [ShowState (NumberCounter.Number (Num 5)); ShowStr "is the count"] ].
Proof.
  apply (listeners_see_new_state NumberCounter.numberStore_reducer 0
           NumberCounter.DECREMENT
           (Store (NumberCounter.Number (Num 6))
                  [ NumberCounter.numberStore_listener;
                    VFun 1 (λ _, [Log [LGetState; LStr "is the count"]]) ])
           [[ShowStr "Action just came in:"; ShowValue NumberCounter.DECREMENT]]
           (NumberCounter.Number (Num 5))).
  - reflexivity.
  - repeat constructor.
Defined.


(** X7 at the example's three actions. *)
Lemma counter_adds_up_witness :
  reduce_all NumberCounter.numberStore_reducer
    [NumberCounter.INCREMENT; NumberCounter.INCREMENT_BY 3;
     NumberCounter.DECREMENT]
    (NumberCounter.Number (Num 0)) =
  Some (NumberCounter.Number (Num 3)).
Proof.
  refine (proj1 (counter_adds_up 0
    [NumberCounter.INCREMENT; NumberCounter.INCREMENT_BY 3;
     NumberCounter.DECREMENT] _)).
  unfold NumberCounter.stays_safe, NumberCounter.safe_integer.
  split; [lia |]. exists 1%Z. split; [reflexivity |]. split; [lia |].
  split; [lia |]. exists 3%Z. split; [reflexivity |]. split; [lia |].
  split; [lia |]. exists (-1)%Z. split; [reflexivity |]. split; [lia |].
  split; [lia | exact I].
Defined.

(** X8 at an increment and a decrement. *)
Lemma counter_order_irrelevant_witness :
  reduce_all NumberCounter.numberStore_reducer
    [NumberCounter.INCREMENT_BY 5; NumberCounter.DECREMENT]
    (NumberCounter.Number (Num 2)) =
  reduce_all NumberCounter.numberStore_reducer
    [NumberCounter.DECREMENT; NumberCounter.INCREMENT_BY 5]
    (NumberCounter.Number (Num 2)).
Proof.
  apply counter_order_irrelevant.
  - apply perm_swap.
  - unfold NumberCounter.stays_safe, NumberCounter.safe_integer.
    split; [lia |]. exists 5%Z. split; [reflexivity |]. split; [lia |].
    split; [lia |]. exists (-1)%Z. split; [reflexivity |]. split; [lia |].
    split; [lia | exact I].
  - unfold NumberCounter.stays_safe, NumberCounter.safe_integer.
    split; [lia |]. exists (-1)%Z. split; [reflexivity |]. split; [lia |].
    split; [lia |]. exists 5%Z. split; [reflexivity |]. split; [lia |].
    split; [lia | exact I].
Defined.

(** X9 at two actions after the count has become NaN. *)
Lemma counter_NaN_is_absorbing_witness :
  reduce_all NumberCounter.numberStore_reducer
    [NumberCounter.INCREMENT; NumberCounter.INCREMENT_BY 4]
    (NumberCounter.Number NaN) = Some (NumberCounter.Number NaN) ∧
  NumberCounter.Number NaN = NumberCounter.Number NaN.
Proof.
  split; [reflexivity |].
  apply (proj2 counter_NaN_is_absorbing
           [NumberCounter.INCREMENT; NumberCounter.INCREMENT_BY 4]).
  reflexivity.
Defined.

(** X10 at the example, which starts from [undefined], with the sums of
    numbers. *)
Lemma counter_state_defined_after_dispatch_witness :
  ∃ st,
    outcome (getState (final (run AnyState.counter_reducer 1
                                  NumberCounter.numberStore_script
                                  (createStore NumberCounter.Undefined)))) =
      Returned (RState st) ∧
    AnyState.counter_is_undefined st = false.
Proof.
  apply (counter_state_defined_after_dispatch AnyState.counter_is_undefined
           (NumberCounter.Number (Num 0)) _ _ _ NumberCounter.type).
  - reflexivity.
  - by intros st st' [= <-].
  - by intros st st' [= <-].
  - by intros st a st' [= <-].
  - discriminate.
Defined.

(** X12 at an UPDATE_BIO that has an age and no name. *)
Lemma UPDATE_BIO_overwrites_name_and_age_witness :
  let old : gmap string prim :=
    {[ "num" := PNum (Num 5); "name" := PStr "Zak"; "age" := PNum (Num 17) ]} in
  let o : gmap string prim :=
    {[ "type" := PStr "UPDATE_BIO"; "age" := PNum (Num 18) ]} in
  ∃ newState,
    Chapter.myReducer old (VObj o) = ([], inr newState) ∧
    newState !! "name" = Some (Chapter.get o "name") ∧
    newState !! "age" = Some (Chapter.get o "age") ∧
    (∀ key, key ≠ "name" → key ≠ "age" → newState !! key = old !! key) ∧
    (o !! "name" = None → newState !! "name" = Some PUndef).
Proof.
  apply UPDATE_BIO_overwrites_name_and_age.
  vm_compute. reflexivity.
Defined.

(** X15 at two UPDATE_BIO actions. *)
Lemma myReducer_last_write_wins_witness :
  reduce_all Chapter.myReducer
    [Chapter.UPDATE_BIO "Zak" 17; Chapter.UPDATE_BIO "Zed" 71]
    Chapter.bio_initial =
  reduce_all Chapter.myReducer [Chapter.UPDATE_BIO "Zed" 71]
    Chapter.bio_initial.
Proof.
  apply (myReducer_last_write_wins Chapter.bio_initial _ _ "UPDATE_BIO").
  - left. reflexivity.
  - vm_compute. reflexivity.
  - vm_compute. reflexivity.
Defined.

(** X16 at the chapter's two actions. *)
Lemma UPDATE_BIO_INCREMENT_NUM_commute_witness :
  reduce_all Chapter.myReducer
    [Chapter.UPDATE_BIO "Zak" 17; Chapter.INCREMENT_NUM 5]
    Chapter.bio_initial =
  reduce_all Chapter.myReducer
    [Chapter.INCREMENT_NUM 5; Chapter.UPDATE_BIO "Zak" 17]
    Chapter.bio_initial.
Proof.
  apply (UPDATE_BIO_INCREMENT_NUM_commute Chapter.bio_initial).
  - vm_compute. reflexivity.
  - vm_compute. reflexivity.
Defined.

(** X17 at the chapter's call [updateBio('Zak', 17)]. *)
Lemma UPDATE_BIO_is_updateBio_witness :
  let s := Store Chapter.bio_initial [Chapter.store_listener] in
  let r := dispatchAction Chapter.myReducer 1
             (VObj {[ "type" := PStr "UPDATE_BIO"; "name" := PStr "Zak";
                      "age" := PNum (Num 17) ]}) s in
  state (final r) =
    Chapter.updateBio_modifier (PStr "Zak") (PNum (Num 17)) Chapter.bio_initial ∧
  returned r = true.
Proof.
  pose proof (UPDATE_BIO_is_updateBio (PStr "Zak") (PNum (Num 17)))
    as (_ & Honly & Hobserved).
  split.
  - apply (Honly 1 (Store Chapter.bio_initial [Chapter.store_listener])).
    vm_compute. reflexivity.
  - apply (Hobserved 0 (Store Chapter.bio_initial [Chapter.store_listener])).
    repeat constructor.
Defined.

